(** * TARP coverage estimation ([tarp/drp.py]): a shallow embedding

    The module under study computes expected-coverage curves from posterior
    samples.  Its numeric work is done on numpy arrays of float64 and its
    randomness comes from numpy's process-wide generator.

    Conventions of the embedding:
    - a float64 that the pipeline takes as input or computes from finite
      inputs is an exact rational ([Q]); the only non-finite value that the
      pipeline can produce from finite inputs is the [nan] of [0/0], which
      the output type [f64] keeps explicit;
    - an [ndarray] is a shape with row-major data, as numpy stores it;
    - [np.random] is a [Generator]: an abstract state with the two draws
      the module uses, threaded through a state-and-exception monad;
    - [np.sqrt] is a parameter of the development: every statement below
      holds whatever rounding of the square root is put in its place. *)

From Stdlib Require Import String List ZArith QArith Qround Qminmax Qabs.
From Stdlib Require Import Bool Arith Lia Lqa.
Import ListNotations.

Local Open Scope nat_scope.

(** ** Scalars *)

(** The literal [1e-10] of the normalisation step. *)
Definition eps : Q := 1 # 10000000000.

(** A float64 result: finite, or the [nan] of a [0/0]. *)
Inductive f64 : Type :=
| Fin (q : Q)
| NaN.

Definition f64_add (a b : f64) : f64 :=
  match a, b with
  | Fin x, Fin y => Fin (x + y)
  | _, _ => NaN
  end.

Definition f64_mul (a b : f64) : f64 :=
  match a, b with
  | Fin x, Fin y => Fin (x * y)
  | _, _ => NaN
  end.

(** [a <= b] on float64: every comparison with [nan] is false. *)
Definition f64_le (a b : f64) : Prop :=
  match a, b with
  | Fin x, Fin y => (x <= y)%Q
  | _, _ => False
  end.

Definition Qltb (x y : Q) : bool :=
  (Qnum x * QDen y <? Qnum y * QDen x)%Z.

Definition Qleb (x y : Q) : bool := Qle_bool x y.

Definition Q_of_nat (n : nat) : Q := inject_Z (Z.of_nat n).

(** ** Python exceptions *)

Inductive exn : Type :=
| ValueError (msg : string)
| IndexError (msg : string)
| AssertionError.

Inductive result (A : Type) : Type :=
| Ok (a : A)
| Raise (e : exn).

Arguments Ok {A} a.
Arguments Raise {A} e.

(** ** numpy arrays *)

Record ndarray : Type := mk_ndarray {
  shape : list nat;
  data : list Q
}.

Definition numel (sh : list nat) : nat := fold_right Nat.mul 1 sh.

(** An array is well formed when its buffer has one entry per index. *)
Definition wf (a : ndarray) : Prop := length (data a) = numel (shape a).

Definition ndim (a : ndarray) : nat := length (shape a).

(** [a.shape[i]] once [i < a.ndim] is known. *)
Definition dim (a : ndarray) (i : nat) : nat := nth i (shape a) 0.

(** Row-major reads of a buffer seen as [(_, N, D)] and as [(_, D)]. *)
Definition at3 (buf : list Q) (N D : nat) (s n d : nat) : Q :=
  nth ((s * N + n) * D + d) buf 0%Q.

Definition at2 (buf : list Q) (D : nat) (n d : nat) : Q :=
  nth (n * D + d) buf 0%Q.

(** The block of [len] consecutive entries that starts at [off]. *)
Definition block (buf : list Q) (off len : nat) : list Q :=
  firstn len (skipn off buf).

(** The [references] argument: [Union[str, np.ndarray]]. *)
Inductive refs_arg : Type :=
| RefStr (s : string)
| RefArr (a : ndarray).

(** ** numpy reductions and the histogram *)

Definition sum_upto (n : nat) (f : nat -> Q) : Q :=
  fold_right (fun i acc => (f i + acc)%Q) 0%Q (seq 0 n).

(** [np.min] / [np.max] along an axis of length [S n]: the fold starts from
    the first entry. *)
Definition reduce_min (n : nat) (f : nat -> Q) : Q :=
  fold_left (fun acc i => Qmin acc (f i)) (seq 1 (n - 1)) (f 0).

Definition reduce_max (n : nat) (f : nat -> Q) : Q :=
  fold_left (fun acc i => Qmax acc (f i)) (seq 1 (n - 1)) (f 0).

(** The number of [i < n] at which [p] holds: [np.sum] of a boolean axis. *)
Definition count_upto (n : nat) (p : nat -> bool) : nat :=
  length (filter p (seq 0 n)).

(** [c / s] for two integers: true division, [0/0] is [nan]. *)
Definition true_divide (c s : nat) : f64 :=
  if s =? 0 then NaN else Fin (Q_of_nat c / Q_of_nat s).

(** [np.linspace(0, 1, bins + 1)] for [bins >= 1]: [i * step + start], and
    the last entry is set to [stop]. *)
Definition linspace01 (bins : nat) : list Q :=
  let step := ((1 - 0) / Q_of_nat bins)%Q in
  map (fun i => (Q_of_nat i * step + 0)%Q) (seq 0 bins) ++ [1%Q].

(** The values [np.histogram] keeps for [range=(0,1)]: [nan] fails both
    comparisons. *)
Definition in_range01 (v : f64) : list Q :=
  match v with
  | Fin q => if Qleb 0 q && Qleb q 1 then [q] else []
  | NaN => []
  end.

(** The bin of a kept value: equal-width bins, the last one closed. *)
Definition bin_index (bins : nat) (x : Q) : nat :=
  let i := Z.to_nat (Qfloor ((x - 0) / (1 - 0) * Q_of_nat bins)) in
  if i =? bins then bins - 1 else i.

Definition bincount (bins : nat) (idx : list nat) : list nat :=
  map (fun b => count_occ Nat.eq_dec idx b) (seq 0 bins).

(** [np.diff]. *)
Fixpoint diff (l : list Q) : list Q :=
  match l with
  | a :: (b :: _) as t => (b - a)%Q :: diff t
  | _ => []
  end.

(** [n / db / n.sum()]: the density normalisation, [nan] when nothing was
    binned. *)
Definition density (counts : list nat) (db : list Q) : list f64 :=
  let total := list_sum counts in
  map (fun '(c, w) =>
         if total =? 0 then NaN
         else Fin (Q_of_nat c / w / Q_of_nat total))
      (combine counts db).

(** [np.histogram(f, density=True, bins=bins, range=(0,1))]. *)
Definition np_histogram (f : list f64) (bins : Z)
  : result (list f64 * list Q) :=
  if (bins <? 1)%Z then
    Raise (ValueError "`bins` must be positive, when an integer")
  else
    let b := Z.to_nat bins in
    let alpha := linspace01 b in
    let kept := flat_map in_range01 f in
    let counts := bincount b (map (bin_index b) kept) in
    Ok (density counts (diff alpha), alpha).

(** [np.cumsum]. *)
Fixpoint cumsum_from (acc : f64) (l : list f64) : list f64 :=
  match l with
  | [] => []
  | x :: t => let acc' := f64_add acc x in acc' :: cumsum_from acc' t
  end.

Definition np_cumsum (l : list f64) : list f64 :=
  match l with
  | [] => []
  | x :: t => x :: cumsum_from x t
  end.

(** ** The random source *)

(** What the module needs of [np.random]: a state fixed by a seed or taken
    from the operating system, one uniform double per step, and one bounded
    integer per step. *)
Record Generator : Type := mk_generator {
  gstate : Type;
  entropy : Type;
  seed_init : Z -> gstate;
  os_seed : entropy -> gstate * entropy;
  next_double : gstate -> Q * gstate;
  next_below : nat -> gstate -> nat * gstate;
  next_below_lt : forall high g, 0 < high -> fst (next_below high g) < high
}.

Section Tarp.

Variable G : Generator.

(** [np.sqrt]. *)
Variable np_sqrt : Q -> Q.

(** The process state the module reads and writes: the global generator,
    the operating system's entropy and the standard output. *)
Record world : Type := mk_world {
  gen : gstate G;
  os : entropy G;
  stdout : list string
}.

(** ** State and exceptions *)

Definition M (A : Type) : Type := world -> result A * world.

Definition ret {A : Type} (a : A) : M A := fun w => (Ok a, w).

Definition raise {A : Type} (e : exn) : M A := fun w => (Raise e, w).

Definition bind {A B : Type} (m : M A) (k : A -> M B) : M B :=
  fun w =>
    match m w with
    | (Ok a, w') => k a w'
    | (Raise e, w') => (Raise e, w')
    end.

Definition lift {A : Type} (r : result A) : M A := fun w => (r, w).

Notation "x <- m ;; k" := (bind m (fun x => k))
  (at level 61, m at next level, right associativity).
Notation "m ;;; k" := (bind m (fun _ => k))
  (at level 61, right associativity).

Definition print (line : string) : M unit :=
  fun w => (Ok tt, mk_world (gen w) (os w) (stdout w ++ [line])).

(** ** [np.random] *)

(** [np.random.seed(seed)]: [None] takes a fresh state from the operating
    system, an integer must fit in 32 bits. *)
Definition np_random_seed (seed : option Z) : M unit :=
  fun w =>
    match seed with
    | None =>
        let (g, e) := os_seed G (os w) in
        (Ok tt, mk_world g e (stdout w))
    | Some s =>
        if ((0 <=? s) && (s <? 2 ^ 32))%Z then
          (Ok tt, mk_world (seed_init G s) (os w) (stdout w))
        else
          (Raise (ValueError "Seed must be between 0 and 2**32 - 1"), w)
    end.

Fixpoint draw_doubles (n : nat) (g : gstate G) : list Q * gstate G :=
  match n with
  | 0 => ([], g)
  | S n' =>
      let (u, g1) := next_double G g in
      let (us, g2) := draw_doubles n' g1 in
      (u :: us, g2)
  end.

Fixpoint draw_below (high n : nat) (g : gstate G) : list nat * gstate G :=
  match n with
  | 0 => ([], g)
  | S n' =>
      let (i, g1) := next_below G high g in
      let (l, g2) := draw_below high n' g1 in
      (i :: l, g2)
  end.

(** [np.random.uniform(low=0, high=1, size=...)] with [n] entries. *)
Definition np_random_uniform (n : nat) : M (list Q) :=
  fun w =>
    let (us, g) := draw_doubles n (gen w) in
    (Ok (map (fun u => (0 + (1 - 0) * u)%Q) us),
     mk_world g (os w) (stdout w)).

(** [np.random.randint(low=0, high=high, size=size)]: an empty request is
    answered before the bounds are looked at. *)
Definition np_random_randint (high size : nat) : M (list nat) :=
  fun w =>
    if size =? 0 then (Ok [], w)
    else if high =? 0 then (Raise (ValueError "low >= high"), w)
    else
      let (idx, g) := draw_below high size (gen w) in
      (Ok idx, mk_world g (os w) (stdout w)).

(** ** The stages of a single pass *)

(** Reference points: drawn on the unit cube, or the caller's after the
    shape checks.  The boolean is [references_given]. *)
Definition reference_points (references : refs_arg) (num_sims num_dims : nat)
    (norm : bool) : M ((nat -> nat -> Q) * bool) :=
  match references with
  | RefStr s =>
      if String.eqb s "random" then
        u <- np_random_uniform (1 * num_sims * num_dims) ;;
        (if negb norm then
           print "Warning: references are normalized but samples are not"
         else ret tt) ;;;
        ret (at2 u num_dims, false)
      else raise AssertionError
  | RefArr r =>
      if negb (ndim r =? 2) then
        raise (ValueError "references must be a 2D array")
      else if negb (dim r 0 =? num_sims) then
        raise (ValueError
                 "references must have the same number of rows as samples")
      else if negb (dim r 1 =? num_dims) then
        raise (ValueError
                 "references must have the same number of columns as samples")
      else ret (at2 (data r) num_dims, true)
  end.

(** [low] and [high] reduce axis 1 of the [(1, N, D)] view of theta: one
    extreme per dimension, taken over the datasets. *)
Definition theta_low (num_sims : nat) (theta : nat -> nat -> Q) (d : nat) : Q :=
  reduce_min num_sims (fun n => theta n d).

Definition theta_high (num_sims : nat) (theta : nat -> nat -> Q) (d : nat) : Q :=
  reduce_max num_sims (fun n => theta n d).

Definition rescale (low high : nat -> Q) (d : nat) (x : Q) : Q :=
  ((x - low d) / (high d - low d + eps))%Q.

Definition normalize (norm references_given : bool) (num_sims : nat)
    (samples : nat -> nat -> nat -> Q) (theta references : nat -> nat -> Q)
  : result ((nat -> nat -> nat -> Q) * (nat -> nat -> Q) * (nat -> nat -> Q)) :=
  if norm then
    if num_sims =? 0 then
      Raise (ValueError
        "zero-size array to reduction operation minimum which has no identity")
    else
      let low := theta_low num_sims theta in
      let high := theta_high num_sims theta in
      Ok (fun s n d => rescale low high d (samples s n d),
          fun n d => rescale low high d (theta n d),
          if references_given then
            fun n d => rescale low high d (references n d)
          else references)
  else Ok (samples, theta, references).

Definition distances (metric : string) (num_dims : nat)
    (references : nat -> nat -> Q) (samples : nat -> nat -> nat -> Q)
    (theta : nat -> nat -> Q)
  : result ((nat -> nat -> Q) * (nat -> Q)) :=
  if String.eqb metric "euclidean" then
    Ok (fun s n =>
          np_sqrt (sum_upto num_dims
                     (fun d => (references n d - samples s n d) ^ 2)%Q),
        fun n =>
          np_sqrt (sum_upto num_dims
                     (fun d => (references n d - theta n d) ^ 2)%Q))
  else if String.eqb metric "manhattan" then
    Ok (fun s n =>
          sum_upto num_dims (fun d => Qabs (references n d - samples s n d)),
        fun n =>
          sum_upto num_dims (fun d => Qabs (references n d - theta n d)))
  else Raise (ValueError "metric must be either 'euclidean' or 'manhattan'").

(** [f = np.sum(samples_distances < theta_distances, axis=0) / num_samples]. *)
Definition credibility (num_samples num_sims : nat)
    (samples_distances : nat -> nat -> Q) (theta_distances : nat -> Q)
  : list f64 :=
  map (fun n =>
         true_divide
           (count_upto num_samples
              (fun s => Qltb (samples_distances s n) (theta_distances n)))
           num_samples)
      (seq 0 num_sims).

(** Histogram, cumulative sum, leading zero. *)
Definition coverage_curve (f : list f64) (num_alpha_bins : Z)
  : result (list f64 * list Q) :=
  match np_histogram f num_alpha_bins with
  | Raise e => Raise e
  | Ok (h, alpha) =>
      let dx := (nth 1 alpha 0 - nth 0 alpha 0)%Q in
      let ecp := map (fun c => f64_mul c (Fin dx)) (np_cumsum h) in
      Ok (Fin 0 :: ecp, alpha)
  end.

Definition default_bins (num_alpha_bins : option Z) (num_sims : nat) : Z :=
  match num_alpha_bins with
  | None => Z.of_nat (num_sims / 10)
  | Some b => b
  end.

(** ** [_get_tarp_coverage_single] *)

Definition _get_tarp_coverage_single (samples theta : ndarray)
    (references : refs_arg) (metric : string) (num_alpha_bins : option Z)
    (norm : bool) (seed : option Z) : M (list f64 * list Q) :=
  np_random_seed seed ;;;
  if negb (ndim samples =? 3) then
    raise (ValueError "samples must be a 3D array")
  else if negb (ndim theta =? 2) then
    raise (ValueError "theta must be a 2D array")
  else
    let num_samples := dim samples 0 in
    let num_sims := dim samples 1 in
    let num_dims := dim samples 2 in
    let num_alpha_bins := default_bins num_alpha_bins num_sims in
    if negb (dim theta 0 =? num_sims) then
      raise (ValueError "theta must have the same number of rows as samples")
    else if negb (dim theta 1 =? num_dims) then
      raise (ValueError
               "theta must have the same number of columns as samples")
    else
      rg <- reference_points references num_sims num_dims norm ;;
      nz <- lift (normalize norm (snd rg) num_sims
                    (at3 (data samples) num_sims num_dims)
                    (at2 (data theta) num_dims) (fst rg)) ;;
      let '(samples', theta', references') := nz in
      ds <- lift (distances metric num_dims references' samples' theta') ;;
      let f := credibility num_samples num_sims (fst ds) (snd ds) in
      lift (coverage_curve f num_alpha_bins).

(** ** Bootstrap resampling *)

(** [a[:, idx, :]]: three index entries need an array of rank 3 or more. *)
Definition take_axis1 (a : ndarray) (idx : list nat) : result ndarray :=
  match shape a with
  | s0 :: s1 :: s2 :: rest =>
      if forallb (fun i => i <? s1) idx then
        let blk := numel (s2 :: rest) in
        Ok (mk_ndarray (s0 :: length idx :: s2 :: rest)
              (flat_map
                 (fun s =>
                    flat_map
                      (fun i => block (data a) ((s * s1 + i) * blk) blk) idx)
                 (seq 0 s0)))
      else Raise (IndexError "index out of bounds for axis 1")
  | _ => Raise (IndexError "too many indices for array")
  end.

(** [a[idx, :]]: two index entries need an array of rank 2 or more. *)
Definition take_axis0 (a : ndarray) (idx : list nat) : result ndarray :=
  match shape a with
  | r :: c :: rest =>
      if forallb (fun i => i <? r) idx then
        let blk := numel (c :: rest) in
        Ok (mk_ndarray (length idx :: c :: rest)
              (flat_map (fun i => block (data a) (i * blk) blk) idx))
      else Raise (IndexError "index out of bounds for axis 0")
  | _ => Raise (IndexError "too many indices for array")
  end.

(** The three resampled inputs of one iteration, all from one [idx]. *)
Definition resample (samples theta : ndarray) (references : refs_arg)
    (idx : list nat) : result (ndarray * ndarray * refs_arg) :=
  match take_axis1 samples idx with
  | Raise e => Raise e
  | Ok boot_samples =>
      match take_axis0 theta idx with
      | Raise e => Raise e
      | Ok boot_theta =>
          match references with
          | RefArr r =>
              match take_axis0 r idx with
              | Raise e => Raise e
              | Ok boot_references =>
                  Ok (boot_samples, boot_theta, RefArr boot_references)
              end
          | RefStr s => Ok (boot_samples, boot_theta, RefStr s)
          end
      end
  end.

(** The body of the loop: one index draw, the resampling, one single pass. *)
Definition boot_iteration (samples theta : ndarray) (references : refs_arg)
    (metric : string) (num_alpha_bins : Z) (norm : bool) (seed : option Z)
    (num_sims : nat) : M (list f64 * list Q) :=
  idx <- np_random_randint num_sims num_sims ;;
  bt <- lift (resample samples theta references idx) ;;
  let '(boot_samples, boot_theta, boot_references) := bt in
  _get_tarp_coverage_single boot_samples boot_theta boot_references metric
    (Some num_alpha_bins) norm seed.

(** [for i in range(k)]: the rows written so far and the last [alpha]. *)
Fixpoint boot_loop (body : M (list f64 * list Q)) (k : nat)
    (boot_ecp : list (list f64)) (alpha : option (list Q))
  : M (list (list f64) * option (list Q)) :=
  match k with
  | 0 => ret (boot_ecp, alpha)
  | S k' =>
      ra <- body ;;
      boot_loop body k' (boot_ecp ++ [fst ra]) (Some (snd ra))
  end.

(** A two-dimensional float64 array with its shape: [boot_ecp]. *)
Record ensemble : Type := mk_ensemble {
  eshape : nat * nat;
  erows : list (list f64)
}.

(** ** [_get_tarp_coverage_bootstrap] *)

Definition _get_tarp_coverage_bootstrap (samples theta : ndarray)
    (references : refs_arg) (metric : string) (num_alpha_bins : option Z)
    (num_bootstrap : Z) (norm : bool) (seed : option Z)
  : M (ensemble * option (list Q)) :=
  if ndim samples <? 2 then raise (IndexError "tuple index out of range")
  else
    let num_sims := dim samples 1 in
    let num_alpha_bins := default_bins num_alpha_bins num_sims in
    if ((num_bootstrap <? 0) || (num_alpha_bins + 1 <? 0))%Z then
      raise (ValueError "negative dimensions are not allowed")
    else
      ra <- boot_loop
              (boot_iteration samples theta references metric num_alpha_bins
                 norm seed num_sims)
              (Z.to_nat num_bootstrap) [] None ;;
      ret (mk_ensemble
             (Z.to_nat num_bootstrap, Z.to_nat (num_alpha_bins + 1)) (fst ra),
           snd ra).

(** ** [get_tarp_coverage] and the deprecated [get_drp_coverage] *)

(** The first component of the returned pair: a curve, or an ensemble. *)
Inductive ecp_result : Type :=
| Curve (ecp : list f64)
| Ensemble (boot_ecp : ensemble).

Definition get_tarp_coverage (samples theta : ndarray)
    (references : refs_arg) (metric : string) (num_alpha_bins : option Z)
    (num_bootstrap : Z) (norm bootstrap : bool) (seed : option Z)
  : M (ecp_result * option (list Q)) :=
  if bootstrap then
    ea <- _get_tarp_coverage_bootstrap samples theta references metric
            num_alpha_bins num_bootstrap norm seed ;;
    ret (Ensemble (fst ea), snd ea)
  else
    ea <- _get_tarp_coverage_single samples theta references metric
            num_alpha_bins norm seed ;;
    ret (Curve (fst ea), Some (snd ea)).

Definition get_drp_coverage (samples theta : ndarray)
    (references : refs_arg) (metric : string)
  : M (ecp_result * option (list Q)) :=
  get_tarp_coverage samples theta references metric None 100 true false None.

End Tarp.

Arguments mk_world {G} gen os stdout.
Arguments gen {G} w.
Arguments os {G} w.
Arguments stdout {G} w.

(** ** A small concrete generator

    A linear congruential generator in the place of numpy's Mersenne
    Twister, to run the pipeline on concrete inputs. *)
Module Lcg.

Definition step (x : Z) : Z := ((1103515245 * x + 12345) mod 2 ^ 31)%Z.

Definition double (g : Z) : Q * Z :=
  let g' := step g in (Qmake g' (2 ^ 31), g').

Definition below (high : nat) (g : Z) : nat * Z :=
  let g' := step g in (Z.to_nat ((g' / 65536) mod Z.of_nat high), g').

Lemma below_lt (high : nat) (g : Z) : 0 < high -> fst (below high g) < high.
Proof.
  intros Hpos. unfold below. cbn [fst].
  assert (H : (0 <= (step g / 65536) mod Z.of_nat high < Z.of_nat high)%Z)
    by (apply Z.mod_pos_bound; lia).
  lia.
Qed.

Definition gen : Generator :=
  mk_generator Z Z (fun s => s) (fun e => (step e, (e + 1)%Z))
    double below below_lt.

(** A square root on rationals, rounded down to a multiple of [2^-60]. *)
Definition sqrt (x : Q) : Q :=
  Qmake (Z.sqrt (Qnum x * 2 ^ 120 / QDen x)) (2 ^ 60).

End Lcg.

(** * Properties *)

(** ** Scalars and reductions *)

Lemma Qltb_lt (x y : Q) : Qltb x y = true <-> (x < y)%Q.
Proof. unfold Qltb, Qlt. apply Z.ltb_lt. Qed.

Lemma Qleb_le (x y : Q) : Qleb x y = true <-> (x <= y)%Q.
Proof. unfold Qleb. apply Qle_bool_iff. Qed.

Lemma Q_of_nat_nonneg (n : nat) : (0 <= Q_of_nat n)%Q.
Proof. unfold Q_of_nat, Qle. simpl. lia. Qed.

Lemma Q_of_nat_pos (n : nat) : 0 < n -> (0 < Q_of_nat n)%Q.
Proof. intros H. unfold Q_of_nat, Qlt. simpl. lia. Qed.

Lemma Q_of_nat_le (n m : nat) : n <= m -> (Q_of_nat n <= Q_of_nat m)%Q.
Proof. intros H. unfold Q_of_nat, Qle. simpl. lia. Qed.

Lemma Q_of_nat_S (n : nat) : (Q_of_nat (S n) == Q_of_nat n + 1)%Q.
Proof.
  unfold Q_of_nat. rewrite Nat2Z.inj_succ. unfold Z.succ.
  rewrite inject_Z_plus. reflexivity.
Qed.

Lemma count_upto_le (n : nat) (p : nat -> bool) : count_upto n p <= n.
Proof.
  unfold count_upto.
  etransitivity; [apply filter_length_le | rewrite length_seq; apply Nat.le_refl].
Qed.

Lemma Qmin_cases (a b : Q) : Qmin a b = a \/ Qmin a b = b.
Proof.
  unfold Qmin, GenericMinMax.gmin. destruct (a ?= b)%Q; auto.
Qed.

Lemma Qmax_cases (a b : Q) : Qmax a b = a \/ Qmax a b = b.
Proof.
  unfold Qmax, GenericMinMax.gmax. destruct (a ?= b)%Q; auto.
Qed.

Lemma fold_min_le_acc (f : nat -> Q) (l : list nat) (acc : Q) :
  (fold_left (fun a i => Qmin a (f i)) l acc <= acc)%Q.
Proof.
  revert acc. induction l as [|i l IH]; intros acc; simpl.
  - apply Qle_refl.
  - eapply Qle_trans; [apply IH | apply Q.le_min_l].
Qed.

Lemma fold_min_le_In (f : nat -> Q) (l : list nat) (acc : Q) (i : nat) :
  In i l -> (fold_left (fun a i => Qmin a (f i)) l acc <= f i)%Q.
Proof.
  revert acc. induction l as [|j l IH]; intros acc Hin; simpl.
  - destruct Hin.
  - destruct Hin as [->|Hin].
    + eapply Qle_trans; [apply fold_min_le_acc | apply Q.le_min_r].
    + apply IH, Hin.
Qed.

Lemma fold_min_attained (f : nat -> Q) (l : list nat) (acc : Q) :
  fold_left (fun a i => Qmin a (f i)) l acc = acc \/
  exists i, In i l /\ fold_left (fun a i => Qmin a (f i)) l acc = f i.
Proof.
  revert acc. induction l as [|j l IH]; intros acc; simpl.
  - now left.
  - destruct (IH (Qmin acc (f j))) as [E|[i [Hin E]]].
    + rewrite E. destruct (Qmin_cases acc (f j)) as [M|M]; rewrite M.
      * now left.
      * right. exists j. split; [now left | reflexivity].
    + right. exists i. split; [now right | exact E].
Qed.

Lemma fold_max_ge_acc (f : nat -> Q) (l : list nat) (acc : Q) :
  (acc <= fold_left (fun a i => Qmax a (f i)) l acc)%Q.
Proof.
  revert acc. induction l as [|i l IH]; intros acc; simpl.
  - apply Qle_refl.
  - eapply Qle_trans; [apply Q.le_max_l | apply IH].
Qed.

Lemma fold_max_ge_In (f : nat -> Q) (l : list nat) (acc : Q) (i : nat) :
  In i l -> (f i <= fold_left (fun a i => Qmax a (f i)) l acc)%Q.
Proof.
  revert acc. induction l as [|j l IH]; intros acc Hin; simpl.
  - destruct Hin.
  - destruct Hin as [->|Hin].
    + eapply Qle_trans; [apply Q.le_max_r | apply fold_max_ge_acc].
    + apply IH, Hin.
Qed.

Lemma fold_max_attained (f : nat -> Q) (l : list nat) (acc : Q) :
  fold_left (fun a i => Qmax a (f i)) l acc = acc \/
  exists i, In i l /\ fold_left (fun a i => Qmax a (f i)) l acc = f i.
Proof.
  revert acc. induction l as [|j l IH]; intros acc; simpl.
  - now left.
  - destruct (IH (Qmax acc (f j))) as [E|[i [Hin E]]].
    + rewrite E. destruct (Qmax_cases acc (f j)) as [M|M]; rewrite M.
      * now left.
      * right. exists j. split; [now left | reflexivity].
    + right. exists i. split; [now right | exact E].
Qed.

Lemma reduce_min_le (n : nat) (f : nat -> Q) (i : nat) :
  i < n -> (reduce_min n f <= f i)%Q.
Proof.
  intros Hi. unfold reduce_min. destruct i as [|i].
  - apply fold_min_le_acc.
  - apply fold_min_le_In, in_seq. lia.
Qed.

Lemma reduce_min_attained (n : nat) (f : nat -> Q) :
  0 < n -> exists i, i < n /\ reduce_min n f = f i.
Proof.
  intros Hn. unfold reduce_min.
  destruct (fold_min_attained f (seq 1 (n - 1)) (f 0)) as [E|[i [Hin E]]].
  - exists 0. split; [exact Hn | exact E].
  - exists i. apply in_seq in Hin. split; [lia | exact E].
Qed.

Lemma reduce_max_ge (n : nat) (f : nat -> Q) (i : nat) :
  i < n -> (f i <= reduce_max n f)%Q.
Proof.
  intros Hi. unfold reduce_max. destruct i as [|i].
  - apply fold_max_ge_acc.
  - apply fold_max_ge_In, in_seq. lia.
Qed.

Lemma reduce_max_attained (n : nat) (f : nat -> Q) :
  0 < n -> exists i, i < n /\ reduce_max n f = f i.
Proof.
  intros Hn. unfold reduce_max.
  destruct (fold_max_attained f (seq 1 (n - 1)) (f 0)) as [E|[i [Hin E]]].
  - exists 0. split; [exact Hn | exact E].
  - exists i. apply in_seq in Hin. split; [lia | exact E].
Qed.

(** ** The alpha grid *)

Lemma Q_of_nat_neq0 (n : nat) : 0 < n -> ~ (Q_of_nat n == 0)%Q.
Proof.
  intros H E. apply Q_of_nat_pos in H. rewrite E in H.
  exact (Qlt_irrefl 0 H).
Qed.

Lemma nth_map_seq {A : Type} (g : nat -> A) (a n i : nat) (d : A) :
  i < n -> nth i (map g (seq a n)) d = g (a + i).
Proof.
  intros Hi.
  rewrite (nth_indep _ d (g 0)) by (rewrite length_map, length_seq; exact Hi).
  rewrite (map_nth g (seq a n) 0 i), seq_nth by exact Hi. reflexivity.
Qed.

Lemma linspace01_length (b : nat) : length (linspace01 b) = S b.
Proof.
  unfold linspace01. rewrite length_app, length_map, length_seq. simpl. lia.
Qed.

Lemma linspace01_nth_lt (b i : nat) :
  i < b ->
  nth i (linspace01 b) 0%Q = (Q_of_nat i * ((1 - 0) / Q_of_nat b) + 0)%Q.
Proof.
  intros Hi. unfold linspace01.
  rewrite app_nth1 by (rewrite length_map, length_seq; exact Hi).
  rewrite nth_map_seq by exact Hi. reflexivity.
Qed.

Lemma linspace01_nth_last (b : nat) : nth b (linspace01 b) 0%Q = 1%Q.
Proof.
  unfold linspace01.
  rewrite app_nth2 by (rewrite length_map, length_seq; lia).
  rewrite length_map, length_seq, Nat.sub_diag. reflexivity.
Qed.

Lemma linspace01_nth (b i : nat) :
  0 < b -> i <= b ->
  (nth i (linspace01 b) 0 == Q_of_nat i / Q_of_nat b)%Q.
Proof.
  intros Hb Hi. pose proof (Q_of_nat_neq0 b Hb) as Hnz.
  destruct (Nat.eq_dec i b) as [->|Hne].
  - rewrite linspace01_nth_last. field. exact Hnz.
  - rewrite linspace01_nth_lt by lia. field. exact Hnz.
Qed.

Lemma diff_length (l : list Q) : length (diff l) = length l - 1.
Proof.
  induction l as [|a [|b t] IH]; simpl in *; try reflexivity.
  rewrite IH. lia.
Qed.

Lemma diff_nth (l : list Q) (i : nat) :
  S i < length l ->
  nth i (diff l) 0%Q = (nth (S i) l 0 - nth i l 0)%Q.
Proof.
  revert i. induction l as [|a [|b t] IH]; intros i Hi; simpl in Hi; try lia.
  destruct i as [|i].
  - reflexivity.
  - change (diff (a :: b :: t)) with ((b - a)%Q :: diff (b :: t)).
    change (nth (S i) ((b - a)%Q :: diff (b :: t)) 0%Q)
      with (nth i (diff (b :: t)) 0%Q).
    rewrite IH by (simpl; lia). reflexivity.
Qed.

Lemma diff_linspace01_nth (b i : nat) :
  i < b -> (nth i (diff (linspace01 b)) 0 == 1 / Q_of_nat b)%Q.
Proof.
  intros Hi. assert (Hb : 0 < b) by lia.
  pose proof (Q_of_nat_neq0 b Hb) as Hnz.
  rewrite diff_nth by (rewrite linspace01_length; lia).
  rewrite !linspace01_nth by lia.
  rewrite Q_of_nat_S. field. exact Hnz.
Qed.

Lemma diff_linspace01_pos (b : nat) :
  Forall (fun w => 0 < w)%Q (diff (linspace01 b)).
Proof.
  apply Forall_forall. intros w Hin.
  destruct (In_nth _ _ 0%Q Hin) as [i [Hi <-]].
  rewrite diff_length, linspace01_length in Hi.
  assert (Hib : i < b) by lia.
  rewrite diff_linspace01_nth by exact Hib.
  apply Qlt_shift_div_l.
  - apply Q_of_nat_pos. lia.
  - rewrite Qmult_0_l. reflexivity.
Qed.

(** The bin width that [coverage_curve] reads off the grid. *)
Lemma linspace01_dx (b : nat) :
  0 < b ->
  (nth 1 (linspace01 b) 0 - nth 0 (linspace01 b) 0 == 1 / Q_of_nat b)%Q.
Proof.
  intros Hb. rewrite <- (diff_nth (linspace01 b) 0)
    by (rewrite linspace01_length; lia).
  apply diff_linspace01_nth. exact Hb.
Qed.

(** ** Credibility values and the histogram *)

(** A finite value of the unit interval. *)
Definition in_unit (v : f64) : Prop :=
  match v with
  | Fin q => (0 <= q <= 1)%Q
  | NaN => False
  end.

Definition finite_nonneg (v : f64) : Prop :=
  match v with
  | Fin q => (0 <= q)%Q
  | NaN => False
  end.

Fixpoint nondecreasing (l : list f64) : Prop :=
  match l with
  | a :: (b :: _) as t => f64_le a b /\ nondecreasing t
  | _ => True
  end.

Fixpoint increasing (l : list Q) : Prop :=
  match l with
  | a :: (b :: _) as t => (a < b)%Q /\ increasing t
  | _ => True
  end.

Lemma true_divide_in_unit (c s : nat) :
  0 < s -> c <= s -> in_unit (true_divide c s).
Proof.
  intros Hs Hc. unfold true_divide.
  destruct (Nat.eqb_spec s 0) as [E|_]; [lia|].
  simpl. pose proof (Q_of_nat_pos s Hs) as Hpos. split.
  - apply Qle_shift_div_l; [exact Hpos|].
    rewrite Qmult_0_l. apply Q_of_nat_nonneg.
  - apply Qle_shift_div_r; [exact Hpos|].
    rewrite Qmult_1_l. apply Q_of_nat_le, Hc.
Qed.

Section Credibility.

Variables (num_samples num_sims : nat).
Variables (samples_distances : nat -> nat -> Q) (theta_distances : nat -> Q).

Let f := credibility num_samples num_sims samples_distances theta_distances.

Lemma credibility_length : length f = num_sims.
Proof. unfold f, credibility. now rewrite length_map, length_seq. Qed.

Lemma credibility_nth (n : nat) :
  n < num_sims ->
  nth n f NaN =
  true_divide
    (count_upto num_samples
       (fun s => Qltb (samples_distances s n) (theta_distances n)))
    num_samples.
Proof.
  intros Hn. unfold f, credibility. now rewrite nth_map_seq.
Qed.

Lemma credibility_in_unit : 0 < num_samples -> Forall in_unit f.
Proof.
  intros Hs. unfold f, credibility. apply Forall_map, Forall_forall.
  intros n _. apply true_divide_in_unit; [exact Hs | apply count_upto_le].
Qed.

End Credibility.

Lemma kept_all (f : list f64) :
  Forall in_unit f ->
  length (flat_map in_range01 f) = length f /\
  Forall (fun q => 0 <= q <= 1)%Q (flat_map in_range01 f).
Proof.
  induction 1 as [|v f Hv _ [IHl IHf]]; simpl.
  - split; [reflexivity | constructor].
  - destruct v as [q|]; [|destruct Hv]. simpl in Hv. destruct Hv as [H0 H1].
    simpl. apply Qleb_le in H0, H1. rewrite H0, H1. simpl.
    apply Qleb_le in H0, H1. split; [now rewrite IHl | now constructor].
Qed.

Lemma bin_index_lt (b : nat) (x : Q) :
  0 < b -> (0 <= x <= 1)%Q -> bin_index b x < b.
Proof.
  intros Hb [H0 H1]. unfold bin_index.
  set (y := ((x - 0) / (1 - 0) * Q_of_nat b)%Q).
  assert (Hy : (y <= Q_of_nat b)%Q).
  { unfold y. setoid_replace ((x - 0) / (1 - 0))%Q with x by field.
    rewrite <- (Qmult_1_l (Q_of_nat b)) at 2.
    apply Qmult_le_compat_r; [exact H1 | apply Q_of_nat_nonneg]. }
  apply Qfloor_resp_le in Hy. unfold Q_of_nat in Hy at 1.
  rewrite Qfloor_Z in Hy.
  destruct (Nat.eqb_spec (Z.to_nat (Qfloor y)) b) as [E|N]; lia.
Qed.

Lemma list_sum_map_add {A : Type} (g h : A -> nat) (l : list A) :
  list_sum (map (fun k => g k + h k) l) =
  list_sum (map g l) + list_sum (map h l).
Proof. induction l as [|a l IH]; simpl; [reflexivity | rewrite IH; lia]. Qed.

Lemma list_sum_indicator_out (x a n : nat) :
  x < a ->
  list_sum (map (fun k => if Nat.eq_dec x k then 1 else 0) (seq a n)) = 0.
Proof.
  revert a. induction n as [|n IH]; intros a Hx; [reflexivity|].
  rewrite <- cons_seq, map_cons. cbn [list_sum fold_right].
  change (fold_right Init.Nat.add 0) with list_sum.
  rewrite IH by lia. destruct (Nat.eq_dec x a); lia.
Qed.

Lemma list_sum_indicator (x a n : nat) :
  a <= x < a + n ->
  list_sum (map (fun k => if Nat.eq_dec x k then 1 else 0) (seq a n)) = 1.
Proof.
  revert a. induction n as [|n IH]; intros a Hx; [lia|].
  rewrite <- cons_seq, map_cons. cbn [list_sum fold_right].
  change (fold_right Init.Nat.add 0) with list_sum.
  destruct (Nat.eq_dec x a) as [E|N].
  - rewrite list_sum_indicator_out by lia. reflexivity.
  - rewrite IH by lia. reflexivity.
Qed.

Lemma bincount_total (b : nat) (idx : list nat) :
  Forall (fun i => i < b) idx -> list_sum (bincount b idx) = length idx.
Proof.
  unfold bincount. induction 1 as [|x idx Hx _ IH]; simpl.
  - induction (seq 0 b); simpl; auto.
  - rewrite <- IH.
    rewrite (map_ext _ (fun k => (if Nat.eq_dec x k then 1 else 0)
                                 + count_occ Nat.eq_dec idx k)).
    + rewrite list_sum_map_add, list_sum_indicator by lia. reflexivity.
    + intros k. destruct (Nat.eq_dec x k); reflexivity.
Qed.

Lemma bincount_length (b : nat) (idx : list nat) :
  length (bincount b idx) = b.
Proof. unfold bincount. now rewrite length_map, length_seq. Qed.

Lemma density_length (counts : list nat) (db : list Q) :
  length (density counts db) = Nat.min (length counts) (length db).
Proof. unfold density. now rewrite length_map, length_combine. Qed.

Lemma density_nonneg (counts : list nat) (db : list Q) :
  list_sum counts <> 0 -> Forall (fun w => 0 < w)%Q db ->
  Forall finite_nonneg (density counts db).
Proof.
  intros Ht Hdb. unfold density.
  destruct (Nat.eqb_spec (list_sum counts) 0) as [E|_]; [contradiction|].
  apply Forall_map, Forall_forall. intros [c w] Hin.
  apply in_combine_r in Hin.
  rewrite Forall_forall in Hdb. specialize (Hdb w Hin). simpl.
  assert (Hpos : (0 < Q_of_nat (list_sum counts))%Q)
    by (apply Q_of_nat_pos; lia).
  apply Qle_shift_div_l; [exact Hpos|]. rewrite Qmult_0_l.
  apply Qle_shift_div_l; [exact Hdb|]. rewrite Qmult_0_l.
  apply Q_of_nat_nonneg.
Qed.

Lemma cumsum_from_length (acc : f64) (l : list f64) :
  length (cumsum_from acc l) = length l.
Proof.
  revert acc. induction l as [|x t IH]; intros acc; simpl; auto.
Qed.

Lemma np_cumsum_length (l : list f64) : length (np_cumsum l) = length l.
Proof. destruct l; simpl; [reflexivity | now rewrite cumsum_from_length]. Qed.

Lemma scaled_cumsum_from_nondecreasing (dx : Q) (l : list f64) (a : Q) :
  (0 <= dx)%Q -> Forall finite_nonneg l ->
  nondecreasing
    (Fin (a * dx) ::
     map (fun c => f64_mul c (Fin dx)) (cumsum_from (Fin a) l)).
Proof.
  intros Hdx Hl. revert a.
  induction Hl as [|x t Hx _ IH]; intros a.
  - exact I.
  - destruct x as [q|]; [|destruct Hx]. simpl in Hx.
    change (cumsum_from (Fin a) (Fin q :: t))
      with (Fin (a + q) :: cumsum_from (Fin (a + q)) t).
    rewrite map_cons. change (f64_mul (Fin (a + q)) (Fin dx))
      with (Fin ((a + q) * dx)).
    split; [|apply IH].
    simpl. rewrite Qmult_plus_distr_l.
    rewrite <- (Qplus_0_r (a * dx)) at 1.
    apply Qplus_le_r. apply Qmult_le_0_compat; assumption.
Qed.

Lemma scaled_cumsum_nondecreasing (dx : Q) (h : list f64) :
  (0 <= dx)%Q -> Forall finite_nonneg h ->
  nondecreasing (Fin 0 :: map (fun c => f64_mul c (Fin dx)) (np_cumsum h)).
Proof.
  intros Hdx Hh. destruct Hh as [|x t Hx Ht].
  - exact I.
  - destruct x as [q|]; [|destruct Hx]. simpl in Hx.
    change (np_cumsum (Fin q :: t)) with (Fin q :: cumsum_from (Fin q) t).
    rewrite map_cons. change (f64_mul (Fin q) (Fin dx)) with (Fin (q * dx)).
    split.
    + simpl. apply Qmult_le_0_compat; assumption.
    + apply scaled_cumsum_from_nondecreasing; assumption.
Qed.

Lemma coverage_curve_ok (f : list f64) (bins : Z) :
  (1 <= bins)%Z ->
  let b := Z.to_nat bins in
  let alpha := linspace01 b in
  let h := density (bincount b (map (bin_index b) (flat_map in_range01 f)))
             (diff alpha) in
  let dx := (nth 1 alpha 0 - nth 0 alpha 0)%Q in
  coverage_curve f bins =
  Ok (Fin 0 :: map (fun c => f64_mul c (Fin dx)) (np_cumsum h), alpha).
Proof.
  intros Hb. unfold coverage_curve, np_histogram.
  destruct (Z.ltb_spec bins 1) as [C|_]; [lia | reflexivity].
Qed.

Lemma coverage_curve_raises (f : list f64) (bins : Z) :
  (bins < 1)%Z ->
  coverage_curve f bins =
  Raise (ValueError "`bins` must be positive, when an integer").
Proof.
  intros Hb. unfold coverage_curve, np_histogram.
  destruct (Z.ltb_spec bins 1) as [_|C]; [reflexivity | lia].
Qed.

(** What a curve built from credibility values of the unit interval looks
    like. *)
Lemma coverage_curve_spec (f : list f64) (bins : Z) :
  (1 <= bins)%Z ->
  exists ecp,
    coverage_curve f bins = Ok (ecp, linspace01 (Z.to_nat bins)) /\
    length ecp = S (Z.to_nat bins) /\
    hd NaN ecp = Fin 0 /\
    (f <> [] -> Forall in_unit f -> nondecreasing ecp).
Proof.
  intros Hb. rewrite (coverage_curve_ok f bins Hb). cbv zeta.
  set (b := Z.to_nat bins). assert (Hb0 : 0 < b) by (unfold b; lia).
  eexists. split; [reflexivity|]. split; [|split].
  - simpl. rewrite length_map, np_cumsum_length, density_length.
    rewrite bincount_length, diff_length, linspace01_length. f_equal. lia.
  - reflexivity.
  - intros Hne Hf. destruct (kept_all f Hf) as [Hlen Hkept].
    apply scaled_cumsum_nondecreasing.
    + rewrite linspace01_dx by exact Hb0.
      apply Qle_shift_div_l; [apply Q_of_nat_pos, Hb0|].
      rewrite Qmult_0_l. discriminate.
    + apply density_nonneg; [|apply diff_linspace01_pos].
      rewrite bincount_total.
      * rewrite length_map, Hlen. destruct f; [contradiction | discriminate].
      * apply Forall_map. eapply Forall_impl; [|exact Hkept].
        intros q Hq. apply bin_index_lt; assumption.
Qed.

(** ** The single pass *)

Definition valid_seed (seed : option Z) : bool :=
  match seed with
  | None => true
  | Some s => ((0 <=? s) && (s <? 2 ^ 32))%Z
  end.

Definition valid_refs (references : refs_arg) (num_sims num_dims : nat)
  : bool :=
  match references with
  | RefStr s => String.eqb s "random"
  | RefArr r => (ndim r =? 2) && (dim r 0 =? num_sims) && (dim r 1 =? num_dims)
  end.

(** The shape contract: samples [(S, N, D)], theta [(N, D)], references
    ["random"] or [(N, D)]. *)
Definition valid_shapes (samples theta : ndarray) (references : refs_arg)
  : bool :=
  (ndim samples =? 3) && (ndim theta =? 2) &&
  (dim theta 0 =? dim samples 1) && (dim theta 1 =? dim samples 2) &&
  valid_refs references (dim samples 1) (dim samples 2).

Definition valid_metric (metric : string) : bool :=
  String.eqb metric "euclidean" || String.eqb metric "manhattan".

Section Single.

Variable G : Generator.
Variable np_sqrt : Q -> Q.

Variables (samples theta : ndarray) (references : refs_arg).
Variables (metric : string) (num_alpha_bins : option Z).
Variables (norm : bool) (seed : option Z).

Let num_samples := dim samples 0.
Let num_sims := dim samples 1.
Let num_dims := dim samples 2.

(** With a usable seed, well-shaped inputs and something to normalise
    with, the single pass gets as far as the metric dispatch. *)
Lemma single_run (w : world G) :
  valid_seed seed = true ->
  valid_shapes samples theta references = true ->
  (norm = true -> num_sims <> 0) ->
  exists samples' theta' references' w',
    _get_tarp_coverage_single G np_sqrt samples theta references metric
      num_alpha_bins norm seed w =
    (match distances np_sqrt metric num_dims references' samples' theta' with
     | Raise e => Raise e
     | Ok ds =>
         coverage_curve
           (credibility num_samples num_sims (fst ds) (snd ds))
           (default_bins num_alpha_bins num_sims)
     end, w').
Proof.
  intros Hseed Hshapes Hnorm.
  unfold valid_shapes in Hshapes.
  apply andb_prop in Hshapes; destruct Hshapes as [Hshapes Href].
  apply andb_prop in Hshapes; destruct Hshapes as [Hshapes Hcols].
  apply andb_prop in Hshapes; destruct Hshapes as [Hshapes Hrows].
  apply andb_prop in Hshapes; destruct Hshapes as [Hs3 Ht2].
  unfold _get_tarp_coverage_single, bind.
  assert (Hs : exists w1, np_random_seed G seed w = (Ok tt, w1)).
  { unfold np_random_seed. destruct seed as [s|]; unfold valid_seed in Hseed.
    - rewrite Hseed. eauto.
    - destruct (os_seed G (os w)). eauto. }
  destruct Hs as [w1 ->].
  rewrite Hs3, Ht2, Hrows, Hcols. cbn [negb].
  fold num_sims num_dims num_samples.
  assert (Hr : exists rg w2,
             reference_points G references num_sims num_dims norm w1
             = (Ok rg, w2)).
  { unfold reference_points, bind.
    destruct references as [s|r]; unfold valid_refs in Href;
      fold num_sims num_dims in Href.
    - rewrite Href. unfold np_random_uniform.
      destruct (draw_doubles G (1 * num_sims * num_dims) (gen w1)).
      destruct norm; cbn; unfold ret; eauto.
    - apply andb_prop in Href; destruct Href as [Href Hrc].
      apply andb_prop in Href; destruct Href as [Hr2 Hrr].
      rewrite Hr2, Hrr, Hrc. cbn. unfold ret. eauto. }
  destruct Hr as [rg [w2 ->]].
  unfold lift at 1.
  assert (Hn : exists nz,
             normalize norm (snd rg) num_sims
               (at3 (data samples) num_sims num_dims)
               (at2 (data theta) num_dims) (fst rg) = Ok nz).
  { unfold normalize. destruct norm; [|eauto].
    destruct (Nat.eqb_spec num_sims 0) as [E|_]; [|eauto].
    now elim Hnorm. }
  destruct Hn as [[[s' t'] r'] ->].
  exists s', t', r', w2. unfold lift.
  destruct (distances np_sqrt metric num_dims r' s' t'); reflexivity.
Qed.

End Single.

Lemma increasing_of_diff (l : list Q) :
  Forall (fun w => 0 < w)%Q (diff l) -> increasing l.
Proof.
  induction l as [|a [|b t] IH]; intros H; try exact I.
  change (diff (a :: b :: t)) with ((b - a)%Q :: diff (b :: t)) in H.
  inversion H as [|w ws Hw Hws]; subst. split.
  - apply (Qplus_lt_l _ _ (- a)). rewrite Qplus_opp_r. exact Hw.
  - apply IH, Hws.
Qed.

Lemma distances_valid (np_sqrt : Q -> Q) (metric : string) (D : nat)
    (r : nat -> nat -> Q) (s : nat -> nat -> nat -> Q) (t : nat -> nat -> Q) :
  valid_metric metric = true ->
  exists ds, distances np_sqrt metric D r s t = Ok ds.
Proof.
  unfold valid_metric, distances. intros H.
  destruct (String.eqb metric "euclidean"); [eauto|].
  destruct (String.eqb metric "manhattan"); [eauto | discriminate].
Qed.

Lemma distances_invalid (np_sqrt : Q -> Q) (metric : string) (D : nat)
    (r : nat -> nat -> Q) (s : nat -> nat -> nat -> Q) (t : nat -> nat -> Q) :
  valid_metric metric = false ->
  distances np_sqrt metric D r s t =
  Raise (ValueError "metric must be either 'euclidean' or 'manhattan'").
Proof.
  unfold valid_metric, distances. intros H.
  destruct (String.eqb metric "euclidean"); [discriminate|].
  destruct (String.eqb metric "manhattan"); [discriminate | reflexivity].
Qed.

(** Whatever the other arguments are, a single pass with an unsupported
    metric does not return. *)
Lemma invalid_metric_never_returns (G : Generator) (np_sqrt : Q -> Q)
    (samples theta : ndarray) (references : refs_arg) (metric : string)
    (num_alpha_bins : option Z) (norm : bool) (seed : option Z)
    (w w' : world G) (res : list f64 * list Q) :
  valid_metric metric = false ->
  _get_tarp_coverage_single G np_sqrt samples theta references metric
    num_alpha_bins norm seed w <> (Ok res, w').
Proof.
  intros Hm H. unfold _get_tarp_coverage_single, bind, lift in H.
  destruct (np_random_seed G seed w) as [[[]|e] w1]; [|discriminate].
  destruct (negb (ndim samples =? 3)); [discriminate|].
  destruct (negb (ndim theta =? 2)); [discriminate|].
  destruct (negb (dim theta 0 =? dim samples 1)); [discriminate|].
  destruct (negb (dim theta 1 =? dim samples 2)); [discriminate|].
  destruct (reference_points G references _ _ norm w1) as [[rg|e] w2];
    [|discriminate].
  destruct (normalize _ _ _ _ _ _) as [[[s' t'] r']|]; [|discriminate].
  rewrite distances_invalid in H by exact Hm. discriminate.
Qed.

(** ** Concrete inputs

    One sample, two datasets, one dimension: the sample of dataset 0 is
    closer to the reference than the truth, the sample of dataset 1 is
    farther. *)
Module Ex.

Definition samples : ndarray := mk_ndarray [1; 2; 1] [0; 2]%Q.
Definition theta : ndarray := mk_ndarray [2; 1] [1; 1]%Q.
Definition references : ndarray := mk_ndarray [2; 1] [0; 0]%Q.

(** A truth array with one row too many for [samples]. *)
Definition theta3 : ndarray := mk_ndarray [3; 1] [1; 1; 1]%Q.

(** The process state with the generator at [g]. *)
Definition w0 (g : Z) : world Lcg.gen := mk_world (G := Lcg.gen) g 0%Z [].

End Ex.

(** Side conditions on concrete inputs are settled by evaluation. *)
Ltac evaluate :=
  first [ reflexivity
        | simpl; lia
        | cbv; lia
        | vm_compute; discriminate
        | intros; discriminate ].

(** * The claims *)

(** The count of the specification: the samples of dataset [n] that are
    strictly closer to the reference than the truth is. *)
Definition closer_count (num_samples : nat)
    (samples_distances : nat -> nat -> Q) (theta_distances : nat -> Q)
    (n : nat) : nat :=
  length
    (filter
       (fun s =>
          if Qlt_le_dec (samples_distances s n) (theta_distances n)
          then true else false)
       (seq 0 num_samples)).

(** C4: the credibility value of dataset [n] is the number of samples
    whose distance to the reference is strictly less than the truth's
    distance to the reference, divided by the number of samples [S], and it
    lies in [[0,1]]. *)
Theorem credibility_is_closer_fraction (num_samples num_sims : nat)
    (samples_distances : nat -> nat -> Q) (theta_distances : nat -> Q)
    (n : nat) :
  0 < num_samples -> n < num_sims ->
  let c := closer_count num_samples samples_distances theta_distances n in
  nth n (credibility num_samples num_sims samples_distances theta_distances)
    NaN = Fin (Q_of_nat c / Q_of_nat num_samples) /\
  (0 <= Q_of_nat c / Q_of_nat num_samples <= 1)%Q.
Proof.
  intros HS Hn c.
  assert (Hc : c = count_upto num_samples
                     (fun s => Qltb (samples_distances s n)
                                 (theta_distances n))).
  { unfold c, closer_count, count_upto. f_equal. apply filter_ext.
    intros s. destruct (Qlt_le_dec _ _) as [L|L].
    - symmetry. apply Qltb_lt, L.
    - destruct (Qltb _ _) eqn:E; [|reflexivity].
      apply Qltb_lt in E. exfalso. exact (Qlt_not_le _ _ E L). }
  rewrite credibility_nth by exact Hn. rewrite <- Hc.
  pose proof (true_divide_in_unit c num_samples HS) as Hu.
  unfold true_divide in *.
  destruct (Nat.eqb_spec num_samples 0) as [E|_]; [lia|].
  split; [reflexivity|]. apply Hu. rewrite Hc. apply count_upto_le.
Qed.

Lemma credibility_is_closer_fraction_witness :
  nth 1 (credibility 2 3 (fun s n => Q_of_nat (s + n)) (fun _ => 2%Q)) NaN
  = Fin (Q_of_nat 1 / Q_of_nat 2) /\
  (0 <= Q_of_nat 1 / Q_of_nat 2 <= 1)%Q.
Proof.
  apply (credibility_is_closer_fraction 2 3
           (fun s n => Q_of_nat (s + n)) (fun _ => 2%Q) 1); lia.
Defined.

(** A valid single pass returns the curve of its credibility values. *)
Lemma single_returns (G : Generator) (np_sqrt : Q -> Q)
    (samples theta : ndarray) (references : refs_arg) (metric : string)
    (num_alpha_bins : option Z) (norm : bool) (seed : option Z)
    (w : world G) :
  valid_seed seed = true ->
  valid_shapes samples theta references = true ->
  valid_metric metric = true ->
  (norm = true -> dim samples 1 <> 0) ->
  exists ds w',
    _get_tarp_coverage_single G np_sqrt samples theta references metric
      num_alpha_bins norm seed w =
    (coverage_curve
       (credibility (dim samples 0) (dim samples 1) (fst ds) (snd ds))
       (default_bins num_alpha_bins (dim samples 1)), w').
Proof.
  intros Hseed Hshapes Hmetric Hnorm.
  destruct (single_run G np_sqrt samples theta references metric
              num_alpha_bins norm seed w Hseed Hshapes Hnorm)
    as [s' [t' [r' [w' Hrun]]]].
  destruct (distances_valid np_sqrt metric (dim samples 2) r' s' t' Hmetric)
    as [ds Hds].
  rewrite Hds in Hrun. exists ds, w'. exact Hrun.
Qed.

(** C5: on a valid input (usable seed, shapes that agree, a supported
    metric, at least one bin, at least one sample and one dataset) the
    single pass returns, and the returned ecp starts with exactly 0, is
    non-decreasing along its whole length and has [num_alpha_bins + 1]
    entries. *)
Theorem single_ecp_invariants (G : Generator) (np_sqrt : Q -> Q)
    (samples theta : ndarray) (references : refs_arg) (metric : string)
    (num_alpha_bins : option Z) (norm : bool) (seed : option Z)
    (w : world G) :
  valid_seed seed = true ->
  valid_shapes samples theta references = true ->
  valid_metric metric = true ->
  (1 <= default_bins num_alpha_bins (dim samples 1))%Z ->
  0 < dim samples 0 -> 0 < dim samples 1 ->
  exists ecp alpha w',
    _get_tarp_coverage_single G np_sqrt samples theta references metric
      num_alpha_bins norm seed w = (Ok (ecp, alpha), w') /\
    hd NaN ecp = Fin 0 /\
    nondecreasing ecp /\
    length ecp = S (Z.to_nat (default_bins num_alpha_bins (dim samples 1))).
Proof.
  intros Hseed Hshapes Hmetric Hbins HS HN.
  destruct (single_returns G np_sqrt samples theta references metric
              num_alpha_bins norm seed w Hseed Hshapes Hmetric)
    as [ds [w' Hrun]]; [lia|].
  destruct (coverage_curve_spec
              (credibility (dim samples 0) (dim samples 1) (fst ds) (snd ds))
              _ Hbins) as [ecp [Hcc [Hlen [Hhd Hmono]]]].
  rewrite Hcc in Hrun. eexists ecp, _, w'.
  split; [exact Hrun|]. split; [exact Hhd|]. split; [|exact Hlen].
  apply Hmono.
  - intros E. apply (f_equal (@length f64)) in E.
    rewrite credibility_length in E. simpl in E. lia.
  - apply credibility_in_unit, HS.
Qed.

Lemma single_ecp_invariants_witness :
  exists ecp alpha w',
    _get_tarp_coverage_single Lcg.gen Lcg.sqrt Ex.samples Ex.theta
      (RefArr Ex.references) "manhattan" (Some 2%Z) false (Some 0%Z)
      (Ex.w0 5) = (Ok (ecp, alpha), w') /\
    hd NaN ecp = Fin 0 /\
    nondecreasing ecp /\
    length ecp = S (Z.to_nat (default_bins (Some 2%Z) (dim Ex.samples 1))).
Proof.
  apply single_ecp_invariants; evaluate.
Defined.

(** C9: on a valid single-pass call with [bins] bins the returned alpha is
    the grid [linspace01 bins], a function of the bin count alone; it has
    [bins + 1] entries, is strictly increasing, starts at 0, ends at 1 and
    consecutive entries are [1/bins] apart. *)
Theorem single_alpha_grid (G : Generator) (np_sqrt : Q -> Q)
    (samples theta : ndarray) (references : refs_arg) (metric : string)
    (num_alpha_bins : option Z) (norm : bool) (seed : option Z)
    (w : world G) :
  valid_seed seed = true ->
  valid_shapes samples theta references = true ->
  valid_metric metric = true ->
  (1 <= default_bins num_alpha_bins (dim samples 1))%Z ->
  (norm = true -> dim samples 1 <> 0) ->
  let bins := Z.to_nat (default_bins num_alpha_bins (dim samples 1)) in
  exists ecp w',
    _get_tarp_coverage_single G np_sqrt samples theta references metric
      num_alpha_bins norm seed w = (Ok (ecp, linspace01 bins), w') /\
    length (linspace01 bins) = S bins /\
    increasing (linspace01 bins) /\
    (nth 0 (linspace01 bins) 0 == 0)%Q /\
    (nth bins (linspace01 bins) 0 == 1)%Q /\
    forall i, i < bins ->
      (nth (S i) (linspace01 bins) 0 - nth i (linspace01 bins) 0
       == 1 / Q_of_nat bins)%Q.
Proof.
  intros Hseed Hshapes Hmetric Hbins Hnorm bins.
  destruct (single_returns G np_sqrt samples theta references metric
              num_alpha_bins norm seed w Hseed Hshapes Hmetric Hnorm)
    as [ds [w' Hrun]].
  destruct (coverage_curve_spec
              (credibility (dim samples 0) (dim samples 1) (fst ds) (snd ds))
              _ Hbins) as [ecp [Hcc _]].
  rewrite Hcc in Hrun. fold bins in Hrun.
  assert (Hb : 0 < bins) by (unfold bins; lia).
  exists ecp, w'. split; [exact Hrun|].
  split; [apply linspace01_length|].
  split; [apply increasing_of_diff, diff_linspace01_pos|].
  split; [|split].
  - rewrite linspace01_nth by lia. unfold Qdiv. apply Qmult_0_l.
  - rewrite linspace01_nth_last. reflexivity.
  - intros i Hi. rewrite <- diff_nth by (rewrite linspace01_length; lia).
    apply diff_linspace01_nth, Hi.
Qed.

Lemma single_alpha_grid_witness :
  exists ecp w',
    _get_tarp_coverage_single Lcg.gen Lcg.sqrt Ex.samples Ex.theta
      (RefStr "random") "euclidean" (Some 4%Z) true None (Ex.w0 7)
    = (Ok (ecp, linspace01 4), w') /\
    length (linspace01 4) = 5 /\
    increasing (linspace01 4) /\
    (nth 0 (linspace01 4) 0 == 0)%Q /\
    (nth 4 (linspace01 4) 0 == 1)%Q /\
    forall i, i < 4 ->
      (nth (S i) (linspace01 4) 0 - nth i (linspace01 4) 0
       == 1 / Q_of_nat 4)%Q.
Proof.
  apply (single_alpha_grid Lcg.gen Lcg.sqrt Ex.samples Ex.theta
           (RefStr "random") "euclidean" (Some 4%Z) true None (Ex.w0 7));
    evaluate.
Defined.

(** C8: on inputs that pass the shape checks, a metric selector other than
    "euclidean" and "manhattan" makes the single pass raise the
    unsupported-metric error, so no result is returned; "euclidean" is the
    square root of the sum over the dimensions of the squared differences
    and "manhattan" is the sum over the dimensions of the absolute
    differences. *)
Theorem metric_contract (G : Generator) (np_sqrt : Q -> Q)
    (samples theta : ndarray) (references : refs_arg) (metric : string)
    (num_alpha_bins : option Z) (norm : bool) (seed : option Z)
    (w : world G) :
  valid_seed seed = true ->
  valid_shapes samples theta references = true ->
  (norm = true -> dim samples 1 <> 0) ->
  (valid_metric metric = false ->
   exists w',
     _get_tarp_coverage_single G np_sqrt samples theta references metric
       num_alpha_bins norm seed w =
     (Raise (ValueError "metric must be either 'euclidean' or 'manhattan'"),
      w')) /\
  (valid_metric metric = false ->
   forall res w',
     _get_tarp_coverage_single G np_sqrt samples theta references metric
       num_alpha_bins norm seed w <> (Ok res, w')) /\
  (forall D r s t,
     distances np_sqrt "euclidean" D r s t =
     Ok (fun i n => np_sqrt (sum_upto D (fun d => (r n d - s i n d) ^ 2)%Q),
         fun n => np_sqrt (sum_upto D (fun d => (r n d - t n d) ^ 2)%Q))) /\
  (forall D r s t,
     distances np_sqrt "manhattan" D r s t =
     Ok (fun i n => sum_upto D (fun d => Qabs (r n d - s i n d)),
         fun n => sum_upto D (fun d => Qabs (r n d - t n d)))).
Proof.
  intros Hseed Hshapes Hnorm. split; [|split; [|split; reflexivity]].
  - intros Hmetric.
    destruct (single_run G np_sqrt samples theta references metric
                num_alpha_bins norm seed w Hseed Hshapes Hnorm)
      as [s' [t' [r' [w' Hrun]]]].
    rewrite distances_invalid in Hrun by exact Hmetric.
    exists w'. exact Hrun.
  - intros Hmetric res w'.
    apply invalid_metric_never_returns, Hmetric.
Qed.

Lemma metric_contract_witness :
  exists w',
    _get_tarp_coverage_single Lcg.gen Lcg.sqrt Ex.samples Ex.theta
      (RefArr Ex.references) "chebyshev" (Some 2%Z) true (Some 0%Z)
      (Ex.w0 5) =
    (Raise (ValueError "metric must be either 'euclidean' or 'manhattan'"),
     w').
Proof.
  apply (proj1 (metric_contract Lcg.gen Lcg.sqrt Ex.samples Ex.theta
                  (RefArr Ex.references) "chebyshev" (Some 2%Z) true
                  (Some 0%Z) (Ex.w0 5) eq_refl eq_refl
                  ltac:(evaluate))).
  reflexivity.
Defined.

(** The normalisation as the specification words it: extremes of one
    dataset, taken over its dimensions. *)
Definition dataset_low (num_dims : nat) (theta : nat -> nat -> Q) (n : nat)
  : Q := reduce_min num_dims (fun d => theta n d).

Definition dataset_high (num_dims : nat) (theta : nat -> nat -> Q) (n : nat)
  : Q := reduce_max num_dims (fun d => theta n d).

Definition rescale_per_dataset (num_dims : nat) (theta : nat -> nat -> Q)
    (n : nat) (x : Q) : Q :=
  ((x - dataset_low num_dims theta n)
   / (dataset_high num_dims theta n - dataset_low num_dims theta n + eps))%Q.

(** Two datasets in two dimensions: [[0, 10], [2, 4]]. *)
Definition theta22 : list Q := [0; 10; 2; 4]%Q.

(** C2, as stated, fails: for theta [[0, 10], [2, 4]] the code rescales
    entry (0, 1) with the extremes 4 and 10 of dimension 1, not with the
    extremes 0 and 10 of dataset 0. *)
Lemma normalize_per_dataset_counterexample :
  exists samples' theta' references',
    normalize true true 2 (fun _ => at2 theta22 2) (at2 theta22 2)
      (at2 theta22 2) = Ok (samples', theta', references') /\
    (theta' 0%nat 1%nat == (10 - 4) / (10 - 4 + eps))%Q /\
    ~ (theta' 0%nat 1%nat
       == rescale_per_dataset 2 (at2 theta22 2) 0 (at2 theta22 2 0 1))%Q.
Proof.
  do 3 eexists. split; [reflexivity|]. split.
  - vm_compute. reflexivity.
  - vm_compute. discriminate.
Qed.

(** C2 (amended): with normalisation enabled, for each dimension [d] the
    minimum and maximum of Theta are taken over the [N] datasets; every
    entry [x] of Samples and Theta in dimension [d], and of References only
    when they were supplied by the caller, is rescaled to
    [(x - min_d) / (max_d - min_d + 1e-10)]; randomly generated references
    are left untouched. *)
Theorem normalize_per_dimension (G : Generator) (num_sims num_dims : nat)
    (samples : nat -> nat -> nat -> Q) (theta : nat -> nat -> Q)
    (references : refs_arg) (norm : bool) (w : world G)
    (rg : (nat -> nat -> Q) * bool) (w' : world G) :
  0 < num_sims ->
  reference_points G references num_sims num_dims norm w = (Ok rg, w') ->
  let low := theta_low num_sims theta in
  let high := theta_high num_sims theta in
  (forall d,
     (forall n, n < num_sims -> (low d <= theta n d <= high d)%Q) /\
     (exists n, n < num_sims /\ low d = theta n d) /\
     (exists n, n < num_sims /\ high d = theta n d)) /\
  snd rg = match references with RefArr _ => true | RefStr _ => false end /\
  normalize true (snd rg) num_sims samples theta (fst rg) =
  Ok (fun s n d => ((samples s n d - low d) / (high d - low d + eps))%Q,
      fun n d => ((theta n d - low d) / (high d - low d + eps))%Q,
      match references with
      | RefArr _ =>
          fun n d => ((fst rg n d - low d) / (high d - low d + eps))%Q
      | RefStr _ => fst rg
      end).
Proof.
  intros HN Hrg low high. split; [|split].
  - intros d. split; [|split].
    + intros n Hn. split.
      * apply (reduce_min_le num_sims (fun n => theta n d)), Hn.
      * apply (reduce_max_ge num_sims (fun n => theta n d)), Hn.
    + apply (reduce_min_attained num_sims (fun n => theta n d)), HN.
    + apply (reduce_max_attained num_sims (fun n => theta n d)), HN.
  - unfold reference_points, bind in Hrg. destruct references as [s|r].
    + destruct (String.eqb s "random"); [|discriminate].
      unfold np_random_uniform in Hrg.
      destruct (draw_doubles G (1 * num_sims * num_dims) (gen w)).
      destruct norm; cbn in Hrg; inversion Hrg; reflexivity.
    + destruct (negb (ndim r =? 2)); [discriminate|].
      destruct (negb (dim r 0 =? num_sims)); [discriminate|].
      destruct (negb (dim r 1 =? num_dims)); [discriminate|].
      inversion Hrg; reflexivity.
  - assert (Hg : snd rg
                 = match references with RefArr _ => true | RefStr _ => false end).
    { unfold reference_points, bind in Hrg. destruct references as [s|r].
      - destruct (String.eqb s "random"); [|discriminate].
        unfold np_random_uniform in Hrg.
        destruct (draw_doubles G (1 * num_sims * num_dims) (gen w)).
        destruct norm; cbn in Hrg; inversion Hrg; reflexivity.
      - destruct (negb (ndim r =? 2)); [discriminate|].
        destruct (negb (dim r 0 =? num_sims)); [discriminate|].
        destruct (negb (dim r 1 =? num_dims)); [discriminate|].
        inversion Hrg; reflexivity. }
    rewrite Hg. unfold normalize.
    destruct (Nat.eqb_spec num_sims 0) as [E|_]; [lia|].
    destruct references; reflexivity.
Qed.

Lemma normalize_per_dimension_witness :
  normalize true true 2 (fun _ => at2 theta22 2) (at2 theta22 2)
    (at2 theta22 2) =
  Ok (fun _ n d =>
        ((at2 theta22 2 n d - theta_low 2 (at2 theta22 2) d)
         / (theta_high 2 (at2 theta22 2) d - theta_low 2 (at2 theta22 2) d
            + eps))%Q,
      fun n d =>
        ((at2 theta22 2 n d - theta_low 2 (at2 theta22 2) d)
         / (theta_high 2 (at2 theta22 2) d - theta_low 2 (at2 theta22 2) d
            + eps))%Q,
      fun n d =>
        ((at2 theta22 2 n d - theta_low 2 (at2 theta22 2) d)
         / (theta_high 2 (at2 theta22 2) d - theta_low 2 (at2 theta22 2) d
            + eps))%Q).
Proof.
  exact (proj2 (proj2
           (normalize_per_dimension Lcg.gen 2 2 (fun _ => at2 theta22 2)
              (at2 theta22 2) (RefArr (mk_ndarray [2; 2] theta22)) true
              (Ex.w0 5) (at2 theta22 2, true) (Ex.w0 5)
              ltac:(lia) eq_refl))).
Defined.

(** C10: called with [bootstrap=True] and [num_bootstrap=0] on samples of
    rank two or more, the entry point returns an ecp array with zero rows
    (and [bins + 1] columns) together with [None] for alpha; no grid is
    computed and the process state is left as it was. *)
Theorem bootstrap_zero_iterations (G : Generator) (np_sqrt : Q -> Q)
    (samples theta : ndarray) (references : refs_arg) (metric : string)
    (num_alpha_bins : option Z) (norm : bool) (seed : option Z)
    (w : world G) :
  2 <= ndim samples ->
  (0 <= default_bins num_alpha_bins (dim samples 1) + 1)%Z ->
  get_tarp_coverage G np_sqrt samples theta references metric num_alpha_bins
    0 norm true seed w =
  (Ok (Ensemble
         (mk_ensemble
            (0, Z.to_nat (default_bins num_alpha_bins (dim samples 1) + 1))
            []),
       None), w).
Proof.
  intros Hrank Hbins.
  unfold get_tarp_coverage, _get_tarp_coverage_bootstrap, bind.
  destruct (Nat.ltb_spec (ndim samples) 2) as [C|_]; [lia|].
  destruct (Z.ltb_spec (default_bins num_alpha_bins (dim samples 1) + 1) 0)
    as [C|_]; [lia|].
  reflexivity.
Qed.

Lemma bootstrap_zero_iterations_witness :
  get_tarp_coverage Lcg.gen Lcg.sqrt Ex.samples Ex.theta (RefStr "random")
    "euclidean" (Some 5%Z) 0 false true (Some 0%Z) (Ex.w0 5) =
  (Ok (Ensemble (mk_ensemble (0, 6) []), None), Ex.w0 5).
Proof.
  apply (bootstrap_zero_iterations Lcg.gen Lcg.sqrt Ex.samples Ex.theta
           (RefStr "random") "euclidean" (Some 5%Z) false (Some 0%Z)
           (Ex.w0 5)); evaluate.
Defined.

(** ** Resampling *)

Lemma block_length (buf : list Q) (off len : nat) :
  off + len <= length buf -> length (block buf off len) = len.
Proof.
  intros H. unfold block. rewrite length_firstn, length_skipn. lia.
Qed.

Lemma block_nth (buf : list Q) (off len d : nat) :
  d < len -> nth d (block buf off len) 0%Q = nth (off + d) buf 0%Q.
Proof.
  intros H. unfold block. rewrite nth_firstn.
  destruct (Nat.ltb_spec d len) as [_|C]; [|lia]. apply nth_skipn.
Qed.

Lemma nth_flat_map_blocks (g : nat -> list Q) (blk : nat) (l : list nat)
    (j d : nat) :
  (forall i, In i l -> length (g i) = blk) ->
  j < length l -> d < blk ->
  nth (j * blk + d) (flat_map g l) 0%Q = nth d (g (nth j l 0)) 0%Q.
Proof.
  revert j. induction l as [|a l IH]; intros j Hlen Hj Hd; simpl in Hj.
  - lia.
  - pose proof (Hlen a (or_introl eq_refl)) as Ha.
    simpl flat_map. destruct j as [|j].
    + simpl. apply app_nth1. rewrite Ha. exact Hd.
    + rewrite app_nth2 by (rewrite Ha; simpl; lia).
      rewrite Ha.
      replace (S j * blk + d - blk) with (j * blk + d) by (simpl; lia).
      simpl nth. apply IH; [|lia|exact Hd].
      intros i Hi. apply Hlen. now right.
Qed.

Lemma length_flat_map_blocks (g : nat -> list Q) (blk : nat) (l : list nat) :
  (forall i, In i l -> length (g i) = blk) ->
  length (flat_map g l) = length l * blk.
Proof.
  induction l as [|a l IH]; intros Hlen; simpl; [reflexivity|].
  rewrite length_app, (Hlen a (or_introl eq_refl)).
  rewrite IH; [reflexivity|]. intros i Hi. apply Hlen. now right.
Qed.

Lemma forallb_below (bound : nat) (idx : list nat) :
  Forall (fun i => i < bound) idx ->
  forallb (fun i => i <? bound) idx = true.
Proof.
  intros H. apply forallb_forall. rewrite Forall_forall in H.
  intros i Hi. apply Nat.ltb_lt, H, Hi.
Qed.

Lemma take_axis0_spec (a : ndarray) (r c : nat) (idx : list nat) :
  shape a = [r; c] -> wf a -> Forall (fun i => i < r) idx ->
  exists a',
    take_axis0 a idx = Ok a' /\
    shape a' = [length idx; c] /\ wf a' /\
    forall j d, j < length idx -> d < c ->
      at2 (data a') c j d = at2 (data a) c (nth j idx 0) d.
Proof.
  intros Hshape Hwf Hidx. unfold take_axis0. rewrite Hshape.
  rewrite forallb_below by exact Hidx.
  unfold wf in Hwf. rewrite Hshape in Hwf. simpl in Hwf.
  assert (Hblk : numel [c] = c) by (simpl; lia). rewrite Hblk.
  assert (Hlen : forall i, In i idx ->
             length (block (data a) (i * c) c) = c).
  { intros i Hi. apply block_length. rewrite Forall_forall in Hidx.
    specialize (Hidx i Hi). nia. }
  eexists. split; [reflexivity|]. split; [reflexivity|]. split.
  - unfold wf. simpl. rewrite (length_flat_map_blocks _ c) by exact Hlen. lia.
  - intros j d Hj Hd. unfold at2. simpl data.
    rewrite (nth_flat_map_blocks _ c) by assumption.
    apply block_nth, Hd.
Qed.

Lemma take_axis1_spec (a : ndarray) (s0 s1 s2 : nat) (idx : list nat) :
  shape a = [s0; s1; s2] -> wf a -> Forall (fun i => i < s1) idx ->
  exists a',
    take_axis1 a idx = Ok a' /\
    shape a' = [s0; length idx; s2] /\ wf a' /\
    forall s j d, s < s0 -> j < length idx -> d < s2 ->
      at3 (data a') (length idx) s2 s j d
      = at3 (data a) s1 s2 s (nth j idx 0) d.
Proof.
  intros Hshape Hwf Hidx. unfold take_axis1. rewrite Hshape.
  rewrite forallb_below by exact Hidx.
  unfold wf in Hwf. rewrite Hshape in Hwf. simpl in Hwf.
  assert (Hblk : numel [s2] = s2) by (simpl; lia). rewrite Hblk.
  set (row := fun s =>
         flat_map (fun i => block (data a) ((s * s1 + i) * s2) s2) idx).
  assert (Hin : forall s, s < s0 -> forall i, In i idx ->
             length (block (data a) ((s * s1 + i) * s2) s2) = s2).
  { intros s Hs i Hi. apply block_length. rewrite Forall_forall in Hidx.
    specialize (Hidx i Hi).
    assert (H1 : S (s * s1 + i) <= s0 * s1) by nia.
    apply (Nat.mul_le_mono_r _ _ s2) in H1. rewrite Hwf.
    replace (s0 * (s1 * (s2 * 1))) with (s0 * s1 * s2) by lia.
    simpl in H1. lia. }
  assert (Hrow : forall s, In s (seq 0 s0) ->
             length (row s) = length idx * s2).
  { intros s Hs. apply in_seq in Hs. unfold row.
    apply length_flat_map_blocks. apply Hin. lia. }
  eexists. split; [reflexivity|]. split; [reflexivity|]. split.
  - unfold wf. simpl. fold row.
    rewrite (length_flat_map_blocks row (length idx * s2)) by exact Hrow.
    rewrite length_seq. lia.
  - intros s j d Hs Hj Hd. unfold at3. simpl data. fold row.
    replace ((s * length idx + j) * s2 + d)
      with (s * (length idx * s2) + (j * s2 + d)) by nia.
    rewrite (nth_flat_map_blocks row (length idx * s2))
      by (try exact Hrow; rewrite ?length_seq; nia).
    rewrite seq_nth by exact Hs. simpl. unfold row.
    rewrite (nth_flat_map_blocks _ s2) by (try apply Hin; assumption).
    apply block_nth, Hd.
Qed.

Lemma draw_below_spec (G : Generator) (high n : nat) (g : gstate G) :
  0 < high ->
  length (fst (draw_below G high n g)) = n /\
  Forall (fun i => i < high) (fst (draw_below G high n g)).
Proof.
  intros Hh. revert g. induction n as [|n IH]; intros g; simpl.
  - split; [reflexivity | constructor].
  - pose proof (next_below_lt G high g Hh) as Hlt.
    destruct (next_below G high g) as [i g1]. simpl in Hlt.
    specialize (IH g1). destruct (draw_below G high n g1) as [l g2].
    simpl in *. destruct IH as [IHl IHf]. split; [now rewrite IHl|].
    now constructor.
Qed.

Lemma np_random_randint_spec (G : Generator) (n : nat) (w : world G) :
  exists idx w',
    np_random_randint G n n w = (Ok idx, w') /\
    length idx = n /\ Forall (fun i => i < n) idx.
Proof.
  unfold np_random_randint. destruct n as [|n].
  - exists [], w. repeat split. constructor.
  - cbn [Nat.eqb].
    destruct (draw_below_spec G (S n) (S n) (gen w)) as [Hl Hf]; [lia|].
    destruct (draw_below G (S n) (S n) (gen w)) as [idx g].
    exists idx, (mk_world g (os w) (stdout w)). simpl in *.
    repeat split; assumption.
Qed.

(** C6: every bootstrap iteration draws one index vector of length [N]
    with entries below [N]; the resampled samples (dataset axis), the
    resampled theta (rows) and, exactly when the references are a
    caller-supplied array, the resampled references are all read through
    that one vector, so the pairing of reference and truth of a dataset
    (their difference) is kept; a references string is handed on
    unchanged.  The single pass of the iteration runs on these three. *)
Theorem bootstrap_co_resampling (G : Generator) (np_sqrt : Q -> Q)
    (samples theta : ndarray) (references : refs_arg) (metric : string)
    (num_alpha_bins : Z) (norm : bool) (seed : option Z)
    (Sn N D : nat) (w : world G) :
  shape samples = [Sn; N; D] -> wf samples ->
  shape theta = [N; D] -> wf theta ->
  (forall r, references = RefArr r -> shape r = [N; D] /\ wf r) ->
  exists idx w1 boot_samples boot_theta boot_references,
    np_random_randint G N N w = (Ok idx, w1) /\
    length idx = N /\ Forall (fun i => i < N) idx /\
    resample samples theta references idx
    = Ok (boot_samples, boot_theta, boot_references) /\
    boot_iteration G np_sqrt samples theta references metric num_alpha_bins
      norm seed N w
    = _get_tarp_coverage_single G np_sqrt boot_samples boot_theta
        boot_references metric (Some num_alpha_bins) norm seed w1 /\
    shape boot_samples = [Sn; N; D] /\ shape boot_theta = [N; D] /\
    (forall s j d, s < Sn -> j < N -> d < D ->
       at3 (data boot_samples) N D s j d
       = at3 (data samples) N D s (nth j idx 0) d) /\
    (forall j d, j < N -> d < D ->
       at2 (data boot_theta) D j d = at2 (data theta) D (nth j idx 0) d) /\
    match references with
    | RefStr s => boot_references = RefStr s
    | RefArr r =>
        exists r',
          boot_references = RefArr r' /\ shape r' = [N; D] /\
          (forall j d, j < N -> d < D ->
             at2 (data r') D j d = at2 (data r) D (nth j idx 0) d) /\
          (forall j d, j < N -> d < D ->
             (at2 (data r') D j d - at2 (data boot_theta) D j d
              = at2 (data r) D (nth j idx 0%nat) d
                - at2 (data theta) D (nth j idx 0%nat) d)%Q)
    end.
Proof.
  intros Hs Hws Ht Hwt Hr.
  destruct (np_random_randint_spec G N w) as [idx [w1 [Hidx [Hlen Hlt]]]].
  destruct (take_axis1_spec samples Sn N D idx Hs Hws Hlt)
    as [bs [Hbs [Hbs_shape [_ Hbs_at]]]].
  destruct (take_axis0_spec theta N D idx Ht Hwt Hlt)
    as [bt [Hbt [Hbt_shape [_ Hbt_at]]]].
  rewrite Hlen in *.
  destruct references as [s|r].
  - exists idx, w1, bs, bt, (RefStr s).
    assert (Hres : resample samples theta (RefStr s) idx
                   = Ok (bs, bt, RefStr s))
      by (unfold resample; now rewrite Hbs, Hbt).
    repeat split; try assumption.
    unfold boot_iteration, bind, lift. now rewrite Hidx, Hres.
  - destruct (Hr r eq_refl) as [Hrs Hwr].
    destruct (take_axis0_spec r N D idx Hrs Hwr Hlt)
      as [br [Hbr [Hbr_shape [_ Hbr_at]]]].
    rewrite Hlen in *.
    exists idx, w1, bs, bt, (RefArr br).
    assert (Hres : resample samples theta (RefArr r) idx
                   = Ok (bs, bt, RefArr br))
      by (unfold resample; now rewrite Hbs, Hbt, Hbr).
    repeat split; try assumption.
    + unfold boot_iteration, bind, lift. now rewrite Hidx, Hres.
    + exists br. repeat split; try assumption.
      intros j d Hj Hd. now rewrite Hbr_at, Hbt_at.
Qed.

Lemma bootstrap_co_resampling_witness :
  exists idx w1 boot_samples boot_theta boot_references,
    np_random_randint Lcg.gen 2 2 (Ex.w0 5) = (Ok idx, w1) /\
    length idx = 2 /\ Forall (fun i => i < 2) idx /\
    resample Ex.samples Ex.theta (RefArr Ex.references) idx
    = Ok (boot_samples, boot_theta, boot_references) /\
    boot_iteration Lcg.gen Lcg.sqrt Ex.samples Ex.theta
      (RefArr Ex.references) "manhattan" 2 false (Some 0%Z) 2 (Ex.w0 5)
    = _get_tarp_coverage_single Lcg.gen Lcg.sqrt boot_samples boot_theta
        boot_references "manhattan" (Some 2%Z) false (Some 0%Z) w1 /\
    shape boot_samples = [1; 2; 1] /\ shape boot_theta = [2; 1] /\
    (forall s j d, s < 1 -> j < 2 -> d < 1 ->
       at3 (data boot_samples) 2 1 s j d
       = at3 (data Ex.samples) 2 1 s (nth j idx 0) d) /\
    (forall j d, j < 2 -> d < 1 ->
       at2 (data boot_theta) 1 j d
       = at2 (data Ex.theta) 1 (nth j idx 0) d) /\
    exists r',
      boot_references = RefArr r' /\ shape r' = [2; 1] /\
      (forall j d, j < 2 -> d < 1 ->
         at2 (data r') 1 j d = at2 (data Ex.references) 1 (nth j idx 0) d) /\
      (forall j d, j < 2 -> d < 1 ->
         (at2 (data r') 1 j d - at2 (data boot_theta) 1 j d
          = at2 (data Ex.references) 1 (nth j idx 0%nat) d
            - at2 (data Ex.theta) 1 (nth j idx 0%nat) d)%Q).
Proof.
  apply (bootstrap_co_resampling Lcg.gen Lcg.sqrt Ex.samples Ex.theta
           (RefArr Ex.references) "manhattan" 2 false (Some 0%Z) 1 2 1
           (Ex.w0 5)); try reflexivity.
  intros r E. inversion E. split; reflexivity.
Defined.

(** ** Shape errors of the single pass *)

(** The first shape constraint an input violates, with its message. *)
Definition shape_error (samples theta : ndarray) (references : refs_arg)
  : option string :=
  if negb (ndim samples =? 3) then Some "samples must be a 3D array"%string
  else if negb (ndim theta =? 2) then Some "theta must be a 2D array"%string
  else if negb (dim theta 0 =? dim samples 1) then
    Some "theta must have the same number of rows as samples"%string
  else if negb (dim theta 1 =? dim samples 2) then
    Some "theta must have the same number of columns as samples"%string
  else
    match references with
    | RefStr _ => None
    | RefArr r =>
        if negb (ndim r =? 2) then Some "references must be a 2D array"%string
        else if negb (dim r 0 =? dim samples 1) then
          Some "references must have the same number of rows as samples"%string
        else if negb (dim r 1 =? dim samples 2) then
          Some "references must have the same number of columns as samples"%string
        else None
    end.

(** In single-pass mode every violated shape constraint is reported, right
    after the seeding and before any array is read. *)
Lemma single_rejects_bad_shapes (G : Generator) (np_sqrt : Q -> Q)
    (samples theta : ndarray) (references : refs_arg) (metric : string)
    (num_alpha_bins : option Z) (norm : bool) (seed : option Z)
    (w : world G) (msg : string) :
  valid_seed seed = true ->
  shape_error samples theta references = Some msg ->
  exists w',
    np_random_seed G seed w = (Ok tt, w') /\
    _get_tarp_coverage_single G np_sqrt samples theta references metric
      num_alpha_bins norm seed w = (Raise (ValueError msg), w').
Proof.
  intros Hseed Herr.
  unfold _get_tarp_coverage_single, bind.
  assert (Hs : exists w1, np_random_seed G seed w = (Ok tt, w1)).
  { unfold np_random_seed. destruct seed as [s|]; unfold valid_seed in Hseed.
    - rewrite Hseed. eauto.
    - destruct (os_seed G (os w)). eauto. }
  destruct Hs as [w1 ->]. exists w1. split; [reflexivity|].
  unfold shape_error in Herr.
  destruct (negb (ndim samples =? 3)); [now inversion Herr|].
  destruct (negb (ndim theta =? 2)); [now inversion Herr|].
  destruct (negb (dim theta 0 =? dim samples 1)); [now inversion Herr|].
  destruct (negb (dim theta 1 =? dim samples 2)); [now inversion Herr|].
  destruct references as [s|r]; [discriminate|].
  unfold reference_points.
  destruct (negb (ndim r =? 2)); [now inversion Herr|].
  destruct (negb (dim r 0 =? dim samples 1)); [now inversion Herr|].
  destruct (negb (dim r 1 =? dim samples 2)); [now inversion Herr|].
  discriminate.
Qed.

(** ** The bootstrap loop *)

(** One iteration succeeds as soon as theta and the references have at
    least as many rows as samples has datasets: the rows are picked
    through [idx] before the single pass compares the row counts. *)
Lemma boot_iteration_accepts_longer (G : Generator) (np_sqrt : Q -> Q)
    (samples theta r : ndarray) (metric : string) (num_alpha_bins : Z)
    (norm : bool) (seed : option Z) (Sn N D Rt Rr : nat) (w : world G) :
  shape samples = [Sn; N; D] -> wf samples ->
  shape theta = [Rt; D] -> wf theta -> N <= Rt ->
  shape r = [Rr; D] -> wf r -> N <= Rr ->
  valid_seed seed = true -> valid_metric metric = true ->
  (1 <= num_alpha_bins)%Z -> 0 < Sn -> 0 < N ->
  exists ecp alpha w',
    boot_iteration G np_sqrt samples theta (RefArr r) metric num_alpha_bins
      norm seed N w = (Ok (ecp, alpha), w').
Proof.
  intros Hs Hws Ht Hwt HRt Hr Hwr HRr Hseed Hmetric Hbins HSn HN.
  destruct (np_random_randint_spec G N w) as [idx [w1 [Hidx [Hlen Hlt]]]].
  destruct (take_axis1_spec samples Sn N D idx Hs Hws Hlt)
    as [bs [Hbs [Hbs_shape _]]].
  assert (HltT : Forall (fun i => i < Rt) idx)
    by (eapply Forall_impl; [|exact Hlt]; simpl; intros; lia).
  assert (HltR : Forall (fun i => i < Rr) idx)
    by (eapply Forall_impl; [|exact Hlt]; simpl; intros; lia).
  destruct (take_axis0_spec theta Rt D idx Ht Hwt HltT)
    as [bt [Hbt [Hbt_shape _]]].
  destruct (take_axis0_spec r Rr D idx Hr Hwr HltR)
    as [br [Hbr [Hbr_shape _]]].
  rewrite Hlen in *.
  unfold boot_iteration, bind, lift. rewrite Hidx.
  unfold resample. rewrite Hbs, Hbt, Hbr.
  destruct (single_returns G np_sqrt bs bt (RefArr br) metric
              (Some num_alpha_bins) norm seed w1)
    as [ds [w' Hrun]]; try assumption.
  - unfold valid_shapes, valid_refs, ndim, dim.
    rewrite Hbs_shape, Hbt_shape, Hbr_shape. simpl.
    now rewrite !Nat.eqb_refl.
  - intros _. unfold dim. rewrite Hbs_shape. simpl. lia.
  - destruct (coverage_curve_spec
                (credibility (dim bs 0) (dim bs 1) (fst ds) (snd ds))
                (default_bins (Some num_alpha_bins) (dim bs 1)) Hbins)
      as [ecp [Hcc _]].
    rewrite Hcc in Hrun. eexists ecp, _, w'. exact Hrun.
Qed.

Lemma bootstrap_one_iteration (G : Generator) (np_sqrt : Q -> Q)
    (samples theta : ndarray) (references : refs_arg) (metric : string)
    (num_alpha_bins : Z) (norm : bool) (seed : option Z) (w w' : world G)
    (ecp : list f64) (alpha : list Q) :
  2 <= ndim samples -> (0 <= num_alpha_bins + 1)%Z ->
  boot_iteration G np_sqrt samples theta references metric num_alpha_bins
    norm seed (dim samples 1) w = (Ok (ecp, alpha), w') ->
  _get_tarp_coverage_bootstrap G np_sqrt samples theta references metric
    (Some num_alpha_bins) 1 norm seed w =
  (Ok (mk_ensemble (1, Z.to_nat (num_alpha_bins + 1)) [ecp], Some alpha), w').
Proof.
  intros Hrank Hbins Hit.
  unfold _get_tarp_coverage_bootstrap, bind. cbn [default_bins].
  destruct (Nat.ltb_spec (ndim samples) 2) as [C|_]; [lia|].
  destruct (Z.ltb_spec (num_alpha_bins + 1) 0) as [C|_]; [lia|].
  change (Z.to_nat 1) with 1. cbn [Z.ltb Z.compare orb boot_loop].
  unfold bind. rewrite Hit. reflexivity.
Qed.

(** C7 fails in bootstrap mode: with samples of shape (1, 2, 1) and a theta
    of shape (3, 1), whose row count differs from the dataset axis, the
    single pass raises the shape error, but the bootstrap call resamples
    theta down to two rows first and returns an ensemble, whatever the
    generator and the process state. *)
Theorem bootstrap_accepts_mismatched_theta (G : Generator)
    (np_sqrt : Q -> Q) (w : world G) :
  (exists w',
     get_tarp_coverage G np_sqrt Ex.samples Ex.theta3 (RefArr Ex.references)
       "manhattan" (Some 2%Z) 1 false false None w =
     (Raise (ValueError "theta must have the same number of rows as samples"),
      w')) /\
  (exists ecp alpha w',
     get_tarp_coverage G np_sqrt Ex.samples Ex.theta3 (RefArr Ex.references)
       "manhattan" (Some 2%Z) 1 false true None w =
     (Ok (Ensemble (mk_ensemble (1, 3) [ecp]), Some alpha), w')) /\
  get_tarp_coverage G np_sqrt Ex.samples Ex.theta3 (RefArr Ex.references)
    "manhattan" (Some 2%Z) 0 false true None w =
  (Ok (Ensemble (mk_ensemble (0, 3) []), None), w).
Proof.
  split; [|split].
  - destruct (single_rejects_bad_shapes G np_sqrt Ex.samples Ex.theta3
                (RefArr Ex.references) "manhattan" (Some 2%Z) false None w
                "theta must have the same number of rows as samples"
                eq_refl eq_refl) as [w' [_ Hrun]].
    exists w'. unfold get_tarp_coverage, bind. now rewrite Hrun.
  - destruct (boot_iteration_accepts_longer G np_sqrt Ex.samples Ex.theta3
                Ex.references "manhattan" 2 false None 1 2 1 3 2 w)
      as [ecp [alpha [w' Hit]]]; try reflexivity; try lia.
    exists ecp, alpha, w'. unfold get_tarp_coverage, bind.
    rewrite (bootstrap_one_iteration G np_sqrt Ex.samples Ex.theta3
               (RefArr Ex.references) "manhattan" 2 false None w w' ecp alpha);
      [reflexivity | cbv; lia | lia | exact Hit].
  - reflexivity.
Qed.

(** ** Seeding *)

(** A single pass on caller-supplied references draws nothing after the
    seeding: it leaves the generator in the state of the seed. *)
Lemma single_leaves_seed_state (G : Generator) (np_sqrt : Q -> Q)
    (samples theta r : ndarray) (metric : string) (num_alpha_bins : option Z)
    (norm : bool) (s : Z) (w w' : world G) (res : list f64 * list Q) :
  _get_tarp_coverage_single G np_sqrt samples theta (RefArr r) metric
    num_alpha_bins norm (Some s) w = (Ok res, w') ->
  w' = mk_world (seed_init G s) (os w) (stdout w).
Proof.
  unfold _get_tarp_coverage_single, bind, np_random_seed, reference_points,
    lift, raise, ret.
  destruct ((0 <=? s) && (s <? 2 ^ 32))%Z; [|discriminate].
  destruct (negb (ndim samples =? 3)); [discriminate|].
  destruct (negb (ndim theta =? 2)); [discriminate|].
  destruct (negb (dim theta 0 =? dim samples 1)); [discriminate|].
  destruct (negb (dim theta 1 =? dim samples 2)); [discriminate|].
  destruct (negb (ndim r =? 2)); [discriminate|].
  destruct (negb (dim r 0 =? dim samples 1)); [discriminate|].
  destruct (negb (dim r 1 =? dim samples 2)); [discriminate|].
  cbn [fst snd].
  destruct (normalize _ _ _ _ _ _) as [[[s' t'] r']|]; [|discriminate].
  destruct (distances _ _ _ _ _ _); [|discriminate].
  intros H. now inversion H.
Qed.

(** Hence every bootstrap iteration that succeeds hands the next one the
    generator in the state of the seed, not a stream advanced by the
    iterations before it. *)
Lemma boot_iteration_leaves_seed_state (G : Generator) (np_sqrt : Q -> Q)
    (samples theta r : ndarray) (metric : string) (num_alpha_bins : Z)
    (norm : bool) (s : Z) (num_sims : nat) (w w' : world G)
    (res : list f64 * list Q) :
  boot_iteration G np_sqrt samples theta (RefArr r) metric num_alpha_bins
    norm (Some s) num_sims w = (Ok res, w') ->
  gen w' = seed_init G s.
Proof.
  unfold boot_iteration, bind, lift, resample.
  destruct (np_random_randint G num_sims num_sims w) as [[idx|e] w1];
    [|discriminate].
  destruct (take_axis1 samples idx) as [bs|e]; [|discriminate].
  destruct (take_axis0 theta idx) as [bt|e]; [|discriminate].
  destruct (take_axis0 r idx) as [br|e]; [|discriminate].
  intros H. apply single_leaves_seed_state in H. now rewrite H.
Qed.

(** With an integer seed the outcome of a single pass does not depend on
    the process state it starts from. *)
Lemma single_seeded_deterministic (G : Generator) (np_sqrt : Q -> Q)
    (samples theta : ndarray) (references : refs_arg) (metric : string)
    (num_alpha_bins : option Z) (norm : bool) (s : Z) (w1 w2 : world G) :
  fst (_get_tarp_coverage_single G np_sqrt samples theta references metric
         num_alpha_bins norm (Some s) w1)
  = fst (_get_tarp_coverage_single G np_sqrt samples theta references metric
           num_alpha_bins norm (Some s) w2).
Proof.
  unfold _get_tarp_coverage_single, bind, np_random_seed.
  destruct ((0 <=? s) && (s <? 2 ^ 32))%Z; [|reflexivity].
  destruct (negb (ndim samples =? 3)); [reflexivity|].
  destruct (negb (ndim theta =? 2)); [reflexivity|].
  destruct (negb (dim theta 0 =? dim samples 1)); [reflexivity|].
  destruct (negb (dim theta 1 =? dim samples 2)); [reflexivity|].
  unfold reference_points, bind, lift, raise, ret.
  destruct references as [str|r].
  - destruct (String.eqb str "random"); [|reflexivity].
    unfold np_random_uniform. cbn [gen].
    destruct (draw_doubles G _ (seed_init G s)) as [us g].
    destruct norm; cbn [negb print fst snd];
      destruct (normalize _ _ _ _ _ _) as [[[s' t'] r']|]; try reflexivity;
      destruct (distances _ _ _ _ _ _); reflexivity.
  - destruct (negb (ndim r =? 2)); [reflexivity|].
    destruct (negb (dim r 0 =? dim samples 1)); [reflexivity|].
    destruct (negb (dim r 1 =? dim samples 2)); [reflexivity|].
    cbn [fst snd].
    destruct (normalize _ _ _ _ _ _) as [[[s' t'] r']|]; try reflexivity.
    destruct (distances _ _ _ _ _ _); reflexivity.
Qed.

(** The outcome of a seeded iteration is a function of the generator state
    it starts from: that state fixes the index draw, and the single pass
    re-seeds. *)
Lemma boot_iteration_gen_only (G : Generator) (np_sqrt : Q -> Q)
    (samples theta : ndarray) (references : refs_arg) (metric : string)
    (num_alpha_bins : Z) (norm : bool) (s : Z) (num_sims : nat)
    (w1 w2 : world G) :
  gen w1 = gen w2 ->
  fst (boot_iteration G np_sqrt samples theta references metric
         num_alpha_bins norm (Some s) num_sims w1)
  = fst (boot_iteration G np_sqrt samples theta references metric
           num_alpha_bins norm (Some s) num_sims w2).
Proof.
  intros Hg. unfold boot_iteration, bind, lift, np_random_randint.
  rewrite Hg.
  destruct (num_sims =? 0).
  - destruct (resample samples theta references []) as [[[bs bt] br]|e];
      [apply single_seeded_deterministic | reflexivity].
  - destruct (draw_below G num_sims num_sims (gen w2)) as [idx g].
    destruct (resample samples theta references idx) as [[[bs bt] br]|e];
      [apply single_seeded_deterministic | reflexivity].
Qed.

(** The loop only appends rows, one per iteration. *)
Lemma boot_loop_prefix (G : Generator) (body : M G (list f64 * list Q))
    (k : nat) :
  forall (acc rows : list (list f64)) (alpha a : option (list Q))
         (w w' : world G),
    boot_loop G body k acc alpha w = (Ok (rows, a), w') ->
    exists rest, rows = acc ++ rest /\ length rest = k.
Proof.
  induction k as [|k IH]; intros acc rows alpha a w w' Hrun.
  - exists []. simpl in Hrun. unfold ret in Hrun. inversion Hrun.
    now rewrite app_nil_r.
  - cbn [boot_loop] in Hrun. unfold bind in Hrun.
    destruct (body w) as [[ra|e] w1]; [|discriminate].
    destruct (IH _ _ _ _ _ _ Hrun) as [rest [Hrows Hlen]].
    exists (fst ra :: rest). rewrite Hrows, <- app_assoc.
    split; [reflexivity | simpl; now rewrite Hlen].
Qed.

(** With a seed and caller-supplied references, every row of the ensemble
    after the first is the same row. *)
Lemma boot_loop_rows_repeat (G : Generator) (np_sqrt : Q -> Q)
    (samples theta r : ndarray) (metric : string) (num_alpha_bins : Z)
    (norm : bool) (s : Z) (num_sims : nat) (k : nat) :
  forall (acc rows : list (list f64)) (alpha a : option (list Q))
         (w w' : world G),
    gen w = seed_init G s ->
    boot_loop G
      (boot_iteration G np_sqrt samples theta (RefArr r) metric
         num_alpha_bins norm (Some s) num_sims)
      k acc alpha w = (Ok (rows, a), w') ->
    exists row, rows = acc ++ repeat row k.
Proof.
  induction k as [|k IH]; intros acc rows alpha a w w' Hg Hrun.
  - exists []. simpl in *. unfold ret in Hrun. inversion Hrun.
    now rewrite app_nil_r.
  - cbn [boot_loop] in Hrun. unfold bind in Hrun.
    destruct (boot_iteration G np_sqrt samples theta (RefArr r) metric
                num_alpha_bins norm (Some s) num_sims w)
      as [[ra|e] w1] eqn:Hit; [|discriminate].
    pose proof (boot_iteration_leaves_seed_state _ _ _ _ _ _ _ _ _ _ _ _ _ Hit)
      as Hg1.
    destruct k as [|k].
    + cbn [boot_loop] in Hrun. unfold ret in Hrun. inversion Hrun.
      exists (fst ra). reflexivity.
    + pose proof Hrun as Hrun'.
      cbn [boot_loop] in Hrun'. unfold bind in Hrun'.
      destruct (boot_iteration G np_sqrt samples theta (RefArr r) metric
                  num_alpha_bins norm (Some s) num_sims w1)
        as [[ra1|e] w2] eqn:Hit1; [|discriminate].
      assert (Hsame : ra = ra1).
      { pose proof (boot_iteration_gen_only G np_sqrt samples theta
                      (RefArr r) metric num_alpha_bins norm s num_sims
                      w w1 (eq_trans Hg (eq_sym Hg1))) as Hfst.
        rewrite Hit, Hit1 in Hfst. simpl in Hfst. now inversion Hfst. }
      destruct (IH _ _ _ _ _ _ Hg1 Hrun) as [row Hrows].
      exists row. rewrite Hrows.
      (* the row of this iteration is the repeated row *)
      assert (Hrow : row = fst ra).
      { clear IH Hrun'. cbn [boot_loop] in Hrun. unfold bind in Hrun.
        rewrite Hit1 in Hrun.
        destruct (boot_loop_prefix G _ k _ _ _ _ _ _ Hrun)
          as [rest [Hrest _]].
        rewrite Hrows in Hrest. rewrite <- !app_assoc in Hrest.
        apply app_inv_head in Hrest. simpl in Hrest.
        inversion Hrest. now rewrite Hsame. }
      rewrite Hrow, <- app_assoc. reflexivity.
Qed.

Lemma bootstrap_rows_repeat (G : Generator) (np_sqrt : Q -> Q)
    (samples theta r : ndarray) (metric : string) (num_alpha_bins : option Z)
    (num_bootstrap : Z) (norm : bool) (s : Z) (w w' : world G)
    (boot_ecp : ensemble) (alpha : option (list Q)) :
  _get_tarp_coverage_bootstrap G np_sqrt samples theta (RefArr r) metric
    num_alpha_bins num_bootstrap norm (Some s) w = (Ok (boot_ecp, alpha), w') ->
  (0 < num_bootstrap)%Z ->
  exists first row,
    erows boot_ecp = first :: repeat row (Z.to_nat num_bootstrap - 1).
Proof.
  intros Hrun HB. unfold _get_tarp_coverage_bootstrap, bind in Hrun.
  destruct (ndim samples <? 2); [discriminate|].
  destruct ((num_bootstrap <? 0)
            || (default_bins num_alpha_bins (dim samples 1) + 1 <? 0))%Z;
    [discriminate|].
  destruct (Z.to_nat num_bootstrap) as [|k] eqn:Hk; [lia|].
  cbn [boot_loop] in Hrun. unfold bind in Hrun.
  destruct (boot_iteration G np_sqrt samples theta (RefArr r) metric
              (default_bins num_alpha_bins (dim samples 1)) norm (Some s)
              (dim samples 1) w) as [[ra|e] w1] eqn:Hit; [|discriminate].
  pose proof (boot_iteration_leaves_seed_state _ _ _ _ _ _ _ _ _ _ _ _ _ Hit)
    as Hg1.
  destruct (boot_loop G _ k ([] ++ [fst ra]) (Some (snd ra)) w1)
    as [[[rows a]|e] w2] eqn:Hloop; [|discriminate].
  destruct (boot_loop_rows_repeat _ _ _ _ _ _ _ _ _ _ _ _ _ _ _ _ _ Hg1 Hloop)
    as [row Hrows].
  unfold ret in Hrun. inversion Hrun. subst. simpl.
  exists (fst ra), row. now rewrite Nat.sub_0_r.
Qed.

(** The rows and the grid of a run of the entry point, when it returned. *)
Definition rows_of {W : Type}
    (run : result (ecp_result * option (list Q)) * W) : list (list f64) :=
  match fst run with
  | Ok (Ensemble e, _) => erows e
  | Ok (Curve c, _) => [c]
  | Raise _ => []
  end.

Definition alpha_of {W : Type}
    (run : result (ecp_result * option (list Q)) * W) : list Q :=
  match fst run with
  | Ok (_, Some a) => a
  | _ => []
  end.

Definition finite_part (v : f64) : Q :=
  match v with
  | Fin q => q
  | NaN => 0
  end.

(** C1 fails on the code: the seed is applied inside the single pass, that
    is once in every iteration and after that iteration's index draw, and
    never before the loop.  On the example with seed 0 and three
    iterations the first index vector comes from the state the call found
    (here [1, 1]); every iteration leaves the generator in the state of
    seed 0, so the second and the third iteration both draw the first
    vector of that state ([0, 0]) although drawing it advances the
    generator; the second and third rows of the ensemble coincide. *)
Theorem bootstrap_reseeds_in_every_iteration :
  gen (snd (boot_iteration Lcg.gen Lcg.sqrt Ex.samples Ex.theta
              (RefArr Ex.references) "manhattan" 2 false (Some 0%Z) 2
              (Ex.w0 5)))
  = seed_init Lcg.gen 0 /\
  gen (snd (boot_iteration Lcg.gen Lcg.sqrt Ex.samples Ex.theta
              (RefArr Ex.references) "manhattan" 2 false (Some 0%Z) 2
              (Ex.w0 (seed_init Lcg.gen 0))))
  = seed_init Lcg.gen 0 /\
  fst (np_random_randint Lcg.gen 2 2 (Ex.w0 5)) = Ok [1; 1] /\
  fst (np_random_randint Lcg.gen 2 2 (Ex.w0 (seed_init Lcg.gen 0)))
  = Ok [0; 0] /\
  gen (snd (np_random_randint Lcg.gen 2 2 (Ex.w0 (seed_init Lcg.gen 0))))
  <> seed_init Lcg.gen 0 /\
  exists row0 row alpha,
    fst (get_tarp_coverage Lcg.gen Lcg.sqrt Ex.samples Ex.theta
           (RefArr Ex.references) "manhattan" (Some 2%Z) 3 false true
           (Some 0%Z) (Ex.w0 5))
    = Ok (Ensemble (mk_ensemble (3, 3) [row0; row; row]), Some alpha).
Proof.
  split; [|split; [|split; [|split; [|split]]]].
  - vm_compute. reflexivity.
  - vm_compute. reflexivity.
  - vm_compute. reflexivity.
  - vm_compute. reflexivity.
  - vm_compute. discriminate.
  - pose (run := get_tarp_coverage Lcg.gen Lcg.sqrt Ex.samples Ex.theta
                   (RefArr Ex.references) "manhattan" (Some 2%Z) 3 false true
                   (Some 0%Z) (Ex.w0 5)).
    exists (nth 0 (rows_of run) []), (nth 1 (rows_of run) []), (alpha_of run).
    vm_compute. reflexivity.
Qed.

(** C3 fails in bootstrap mode: two calls with the same inputs and the same
    seed 0, made in process states whose generators differ, return
    different ensembles, because the first index vector is drawn before any
    seeding.  The second entry of the only row is 1 in one call and 1/2 in
    the other. *)
Theorem bootstrap_not_deterministic_under_seed :
  exists row1 row2 alpha,
    fst (get_tarp_coverage Lcg.gen Lcg.sqrt Ex.samples Ex.theta
           (RefArr Ex.references) "manhattan" (Some 2%Z) 1 false true
           (Some 0%Z) (Ex.w0 5))
    = Ok (Ensemble (mk_ensemble (1, 3) [row1]), Some alpha) /\
    fst (get_tarp_coverage Lcg.gen Lcg.sqrt Ex.samples Ex.theta
           (RefArr Ex.references) "manhattan" (Some 2%Z) 1 false true
           (Some 0%Z) (Ex.w0 2))
    = Ok (Ensemble (mk_ensemble (1, 3) [row2]), Some alpha) /\
    (finite_part (nth 1 row1 NaN) == 1)%Q /\
    (finite_part (nth 1 row2 NaN) == 1 # 2)%Q /\
    ~ (finite_part (nth 1 row1 NaN) == finite_part (nth 1 row2 NaN))%Q.
Proof.
  pose (run1 := get_tarp_coverage Lcg.gen Lcg.sqrt Ex.samples Ex.theta
                  (RefArr Ex.references) "manhattan" (Some 2%Z) 1 false true
                  (Some 0%Z) (Ex.w0 5)).
  pose (run2 := get_tarp_coverage Lcg.gen Lcg.sqrt Ex.samples Ex.theta
                  (RefArr Ex.references) "manhattan" (Some 2%Z) 1 false true
                  (Some 0%Z) (Ex.w0 2)).
  exists (nth 0 (rows_of run1) []), (nth 0 (rows_of run2) []), (alpha_of run1).
  vm_compute. repeat split; try reflexivity. discriminate.
Qed.

(** * Further properties of the code *)

(** ** The curve as a cumulative fraction *)




















(** X3: the deprecated wrapper always asks for [N // 10] bins, with
    normalisation and without a seed.  With fewer than ten (and at least
    one) datasets the histogram rejects the bin count; from ten datasets
    on the wrapper returns a curve of [N // 10 + 1] entries and its
    grid. *)
Theorem get_drp_coverage_default_bins (G : Generator) (np_sqrt : Q -> Q)
    (samples theta : ndarray) (references : refs_arg) (metric : string)
    (w : world G) :
  valid_shapes samples theta references = true ->
  valid_metric metric = true ->
  0 < dim samples 0 -> 0 < dim samples 1 ->
  (dim samples 1 < 10 ->
   exists w',
     get_drp_coverage G np_sqrt samples theta references metric w =
     (Raise (ValueError "`bins` must be positive, when an integer"), w')) /\
  (10 <= dim samples 1 ->
   exists ecp w',
     get_drp_coverage G np_sqrt samples theta references metric w =
     (Ok (Curve ecp, Some (linspace01 (dim samples 1 / 10))), w') /\
     length ecp = S (dim samples 1 / 10)).
Proof.
  intros Hshapes Hmetric HS HN.
  destruct (single_returns G np_sqrt samples theta references metric
              None true None w eq_refl Hshapes Hmetric)
    as [ds [w' Hrun]]; [lia|].
  unfold get_drp_coverage, get_tarp_coverage, bind. rewrite Hrun.
  cbn [default_bins]. split.
  - intros Hlt. exists w'.
    rewrite coverage_curve_raises; [reflexivity|].
    assert (dim samples 1 / 10 = 0) by (apply Nat.div_small; exact Hlt).
    lia.
  - intros Hge.
    assert (Hq : 1 <= dim samples 1 / 10).
    { change 1 with (10 / 10). apply Nat.Div0.div_le_mono. exact Hge. }
    destruct (coverage_curve_spec
                (credibility (dim samples 0) (dim samples 1)
                   (fst ds) (snd ds))
                (Z.of_nat (dim samples 1 / 10)) ltac:(lia))
      as [ecp [Hcc [Hlen _]]].
    rewrite Nat2Z.id in Hcc, Hlen. rewrite Hcc.
    exists ecp, w'. split; [reflexivity | exact Hlen].
Qed.

Lemma get_drp_coverage_default_bins_witness :
  (dim Ex.samples 1 < 10 ->
   exists w',
     get_drp_coverage Lcg.gen Lcg.sqrt Ex.samples Ex.theta
       (RefArr Ex.references) "euclidean" (Ex.w0 5) =
     (Raise (ValueError "`bins` must be positive, when an integer"), w')) /\
  (10 <= dim Ex.samples 1 ->
   exists ecp w',
     get_drp_coverage Lcg.gen Lcg.sqrt Ex.samples Ex.theta
       (RefArr Ex.references) "euclidean" (Ex.w0 5) =
     (Ok (Curve ecp, Some (linspace01 (dim Ex.samples 1 / 10))), w') /\
     length ecp = S (dim Ex.samples 1 / 10)).
Proof.
  apply (get_drp_coverage_default_bins Lcg.gen Lcg.sqrt Ex.samples Ex.theta
           (RefArr Ex.references) "euclidean" (Ex.w0 5)); evaluate.
Defined.

(** ** Effects of a single pass on the process state *)

(** After the shape checks only the reference stage touches the process
    state. *)
Lemma single_world (G : Generator) (np_sqrt : Q -> Q)
    (samples theta : ndarray) (references : refs_arg) (metric : string)
    (num_alpha_bins : option Z) (norm : bool) (seed : option Z)
    (w : world G) :
  valid_seed seed = true ->
  valid_shapes samples theta references = true ->
  exists w1,
    np_random_seed G seed w = (Ok tt, w1) /\
    snd (_get_tarp_coverage_single G np_sqrt samples theta references metric
           num_alpha_bins norm seed w)
    = snd (reference_points G references (dim samples 1) (dim samples 2)
             norm w1).
Proof.
  intros Hseed Hshapes. unfold valid_shapes in Hshapes.
  apply andb_prop in Hshapes; destruct Hshapes as [Hshapes Href].
  apply andb_prop in Hshapes; destruct Hshapes as [Hshapes Hcols].
  apply andb_prop in Hshapes; destruct Hshapes as [Hshapes Hrows].
  apply andb_prop in Hshapes; destruct Hshapes as [Hs3 Ht2].
  assert (Hs : exists w1, np_random_seed G seed w = (Ok tt, w1)).
  { unfold np_random_seed. destruct seed as [s|]; unfold valid_seed in Hseed.
    - rewrite Hseed. eauto.
    - destruct (os_seed G (os w)). eauto. }
  destruct Hs as [w1 Hw1]. exists w1. split; [exact Hw1|].
  unfold _get_tarp_coverage_single, bind. rewrite Hw1.
  rewrite Hs3, Ht2, Hrows, Hcols. cbn [negb].
  destruct (reference_points G references (dim samples 1) (dim samples 2)
              norm w1) as [[rg|e] w2]; [|reflexivity].
  unfold lift.
  destruct (normalize _ _ _ _ _ _) as [[[s' t'] r']|]; [|reflexivity].
  destruct (distances _ _ _ _ _ _); reflexivity.
Qed.

(** X4: with valid shapes a single pass writes exactly one line to the
    standard output, the warning, when the references are "random" and
    normalisation is off, and nothing otherwise, whether it then returns or
    raises. *)
Theorem single_warning (G : Generator) (np_sqrt : Q -> Q)
    (samples theta : ndarray) (references : refs_arg) (metric : string)
    (num_alpha_bins : option Z) (norm : bool) (seed : option Z)
    (w : world G) :
  valid_seed seed = true ->
  valid_shapes samples theta references = true ->
  stdout (snd (_get_tarp_coverage_single G np_sqrt samples theta references
                 metric num_alpha_bins norm seed w))
  = stdout w ++
    match references with
    | RefStr _ =>
        if norm then []
        else ["Warning: references are normalized but samples are not"%string]
    | RefArr _ => []
    end.
Proof.
  intros Hseed Hshapes.
  destruct (single_world G np_sqrt samples theta references metric
              num_alpha_bins norm seed w Hseed Hshapes) as [w1 [Hw1 ->]].
  assert (Hout : stdout w1 = stdout w).
  { unfold np_random_seed in Hw1. destruct seed as [s|].
    - destruct ((0 <=? s) && (s <? 2 ^ 32))%Z; inversion Hw1; reflexivity.
    - destruct (os_seed G (os w)). inversion Hw1. reflexivity. }
  unfold valid_shapes in Hshapes.
  apply andb_prop in Hshapes; destruct Hshapes as [_ Href].
  unfold reference_points, bind. destruct references as [s|r];
    unfold valid_refs in Href.
  - rewrite Href. unfold np_random_uniform.
    destruct (draw_doubles G _ (gen w1)) as [us g].
    destruct norm; cbn; rewrite Hout; [now rewrite app_nil_r | reflexivity].
  - apply andb_prop in Href; destruct Href as [Href Hrc].
    apply andb_prop in Href; destruct Href as [Hr2 Hrr].
    rewrite Hr2, Hrr, Hrc. cbn. now rewrite Hout, app_nil_r.
Qed.

Lemma single_warning_witness :
  stdout (snd (_get_tarp_coverage_single Lcg.gen Lcg.sqrt Ex.samples
                 Ex.theta (RefStr "random") "euclidean" (Some 2%Z) false
                 (Some 0%Z) (Ex.w0 5)))
  = stdout (Ex.w0 5) ++
    ["Warning: references are normalized but samples are not"%string].
Proof.
  apply (single_warning Lcg.gen Lcg.sqrt Ex.samples Ex.theta
           (RefStr "random") "euclidean" (Some 2%Z) false (Some 0%Z)
           (Ex.w0 5)); evaluate.
Defined.

(** X5: a single pass with an integer seed overwrites the process-wide
    generator: whatever its state was before the call, afterwards it is
    the state of the seed when the references are an array, and the state
    of the seed advanced by the [N * D] uniform draws when they are
    "random"; the entropy source is not consulted. *)
Theorem single_overwrites_generator (G : Generator) (np_sqrt : Q -> Q)
    (samples theta : ndarray) (references : refs_arg) (metric : string)
    (num_alpha_bins : option Z) (norm : bool) (s : Z) (w : world G) :
  valid_seed (Some s) = true ->
  valid_shapes samples theta references = true ->
  let w' := snd (_get_tarp_coverage_single G np_sqrt samples theta
                   references metric num_alpha_bins norm (Some s) w) in
  gen w' =
  match references with
  | RefArr _ => seed_init G s
  | RefStr _ =>
      snd (draw_doubles G (1 * dim samples 1 * dim samples 2)
             (seed_init G s))
  end /\
  os w' = os w.
Proof.
  intros Hseed Hshapes w'. unfold w'. clear w'.
  destruct (single_world G np_sqrt samples theta references metric
              num_alpha_bins norm (Some s) w Hseed Hshapes) as [w1 [Hw1 ->]].
  unfold np_random_seed in Hw1. unfold valid_seed in Hseed.
  rewrite Hseed in Hw1. inversion Hw1 as [Hw]. clear Hw1.
  unfold valid_shapes in Hshapes.
  apply andb_prop in Hshapes; destruct Hshapes as [_ Href].
  unfold reference_points, bind. destruct references as [str|r];
    unfold valid_refs in Href.
  - rewrite Href. unfold np_random_uniform. cbn [gen os stdout].
    destruct (draw_doubles G _ (seed_init G s)) as [us g].
    destruct norm; cbn; split; reflexivity.
  - apply andb_prop in Href; destruct Href as [Href Hrc].
    apply andb_prop in Href; destruct Href as [Hr2 Hrr].
    rewrite Hr2, Hrr, Hrc. cbn. split; reflexivity.
Qed.

Lemma single_overwrites_generator_witness :
  gen (snd (_get_tarp_coverage_single Lcg.gen Lcg.sqrt Ex.samples Ex.theta
              (RefArr Ex.references) "euclidean" (Some 2%Z) true (Some 9%Z)
              (Ex.w0 5)))
  = seed_init Lcg.gen 9 /\
  os (snd (_get_tarp_coverage_single Lcg.gen Lcg.sqrt Ex.samples Ex.theta
             (RefArr Ex.references) "euclidean" (Some 2%Z) true (Some 9%Z)
             (Ex.w0 5)))
  = os (Ex.w0 5).
Proof.
  apply (single_overwrites_generator Lcg.gen Lcg.sqrt Ex.samples Ex.theta
           (RefArr Ex.references) "euclidean" (Some 2%Z) true 9 (Ex.w0 5));
    evaluate.
Defined.

(** X6: a references string other than "random" passes the string test of
    neither branch: once samples and theta agree in shape the single pass
    stops at the assertion, without drawing anything. *)
Theorem single_rejects_other_strings (G : Generator) (np_sqrt : Q -> Q)
    (samples theta : ndarray) (name : string) (metric : string)
    (num_alpha_bins : option Z) (norm : bool) (seed : option Z)
    (w : world G) :
  valid_seed seed = true ->
  valid_shapes samples theta (RefStr "random") = true ->
  String.eqb name "random" = false ->
  exists w',
    np_random_seed G seed w = (Ok tt, w') /\
    _get_tarp_coverage_single G np_sqrt samples theta (RefStr name) metric
      num_alpha_bins norm seed w = (Raise AssertionError, w').
Proof.
  intros Hseed Hshapes Hname. unfold valid_shapes in Hshapes.
  apply andb_prop in Hshapes; destruct Hshapes as [Hshapes _].
  apply andb_prop in Hshapes; destruct Hshapes as [Hshapes Hcols].
  apply andb_prop in Hshapes; destruct Hshapes as [Hshapes Hrows].
  apply andb_prop in Hshapes; destruct Hshapes as [Hs3 Ht2].
  assert (Hs : exists w1, np_random_seed G seed w = (Ok tt, w1)).
  { unfold np_random_seed. destruct seed as [s|]; unfold valid_seed in Hseed.
    - rewrite Hseed. eauto.
    - destruct (os_seed G (os w)). eauto. }
  destruct Hs as [w1 Hw1]. exists w1. split; [exact Hw1|].
  unfold _get_tarp_coverage_single, bind. rewrite Hw1.
  rewrite Hs3, Ht2, Hrows, Hcols. cbn [negb].
  unfold reference_points. rewrite Hname. reflexivity.
Qed.

Lemma single_rejects_other_strings_witness :
  exists w',
    np_random_seed Lcg.gen (Some 0%Z) (Ex.w0 5) = (Ok tt, w') /\
    _get_tarp_coverage_single Lcg.gen Lcg.sqrt Ex.samples Ex.theta
      (RefStr "uniform") "euclidean" (Some 2%Z) true (Some 0%Z) (Ex.w0 5)
    = (Raise AssertionError, w').
Proof.
  apply (single_rejects_other_strings Lcg.gen Lcg.sqrt Ex.samples Ex.theta
           "uniform" "euclidean" (Some 2%Z) true (Some 0%Z) (Ex.w0 5));
    evaluate.
Defined.

(** ** The bootstrap ensemble *)

(** What every row of an ensemble with [bins] bins satisfies. *)
Definition curve_ok (bins : nat) (ecp : list f64) : Prop :=
  hd NaN ecp = Fin 0 /\ nondecreasing ecp /\ length ecp = S bins.

(** On valid inputs an iteration returns a curve on the grid of the bin
    count, from any process state. *)
Lemma boot_iteration_valid (G : Generator) (np_sqrt : Q -> Q)
    (samples theta : ndarray) (references : refs_arg) (metric : string)
    (num_alpha_bins : Z) (norm : bool) (seed : option Z) (Sn N D : nat)
    (w : world G) :
  shape samples = [Sn; N; D] -> wf samples ->
  shape theta = [N; D] -> wf theta ->
  match references with
  | RefArr r => shape r = [N; D] /\ wf r
  | RefStr s => String.eqb s "random" = true
  end ->
  valid_seed seed = true -> valid_metric metric = true ->
  (1 <= num_alpha_bins)%Z -> 0 < Sn -> 0 < N ->
  exists ecp w',
    boot_iteration G np_sqrt samples theta references metric num_alpha_bins
      norm seed N w = (Ok (ecp, linspace01 (Z.to_nat num_alpha_bins)), w') /\
    curve_ok (Z.to_nat num_alpha_bins) ecp.
Proof.
  intros Hs Hws Ht Hwt Href Hseed Hmetric Hbins HSn HN.
  destruct (np_random_randint_spec G N w) as [idx [w1 [Hidx [Hlen Hlt]]]].
  destruct (take_axis1_spec samples Sn N D idx Hs Hws Hlt)
    as [bs [Hbs [Hbs_shape _]]].
  destruct (take_axis0_spec theta N D idx Ht Hwt Hlt)
    as [bt [Hbt [Hbt_shape _]]].
  rewrite Hlen in *.
  assert (Hres : exists br,
             resample samples theta references idx = Ok (bs, bt, br) /\
             valid_shapes bs bt br = true).
  { unfold resample. rewrite Hbs, Hbt. destruct references as [s|r].
    - exists (RefStr s). split; [reflexivity|].
      unfold valid_shapes, valid_refs, ndim, dim.
      rewrite Hbs_shape, Hbt_shape. simpl. now rewrite !Nat.eqb_refl, Href.
    - destruct Href as [Hr Hwr].
      destruct (take_axis0_spec r N D idx Hr Hwr Hlt)
        as [br [Hbr [Hbr_shape _]]].
      rewrite Hlen in *. rewrite Hbr. exists (RefArr br).
      split; [reflexivity|].
      unfold valid_shapes, valid_refs, ndim, dim.
      rewrite Hbs_shape, Hbt_shape, Hbr_shape. simpl.
      now rewrite !Nat.eqb_refl. }
  destruct Hres as [br [Hres Hvalid]].
  assert (Hd0 : dim bs 0 = Sn) by (unfold dim; now rewrite Hbs_shape).
  assert (Hd1 : dim bs 1 = N) by (unfold dim; now rewrite Hbs_shape).
  destruct (single_returns G np_sqrt bs bt br metric (Some num_alpha_bins)
              norm seed w1 Hseed Hvalid Hmetric)
    as [ds [w' Hrun]]; [rewrite Hd1; lia|].
  cbn [default_bins] in Hrun.
  destruct (coverage_curve_spec
              (credibility (dim bs 0) (dim bs 1) (fst ds) (snd ds))
              num_alpha_bins Hbins) as [ecp [Hcc [Hl [Hhd Hmono]]]].
  rewrite Hcc in Hrun. exists ecp, w'. split.
  - unfold boot_iteration, bind, lift. rewrite Hidx, Hres. exact Hrun.
  - split; [exact Hhd|]. split; [|exact Hl]. apply Hmono.
    + intros E. apply (f_equal (@length f64)) in E.
      rewrite credibility_length, Hd1 in E. simpl in E. lia.
    + apply credibility_in_unit. rewrite Hd0. exact HSn.
Qed.

(** When every run of the body returns a row with a property, the loop
    returns one such row per iteration and the grid of the last one. *)
Lemma boot_loop_returns (G : Generator) (body : M G (list f64 * list Q))
    (P : list f64 -> Prop) (grid : list Q) :
  (forall w, exists ecp w', body w = (Ok (ecp, grid), w') /\ P ecp) ->
  forall (k : nat) (acc : list (list f64)) (alpha : option (list Q))
         (w : world G),
    exists rows w',
      boot_loop G body k acc alpha w
      = (Ok (acc ++ rows, if k =? 0 then alpha else Some grid), w') /\
      length rows = k /\ Forall P rows.
Proof.
  intros Hbody. induction k as [|k IH]; intros acc alpha w.
  - exists [], w. rewrite app_nil_r. repeat split. constructor.
  - destruct (Hbody w) as [ecp [w1 [Hrun HP]]].
    destruct (IH (acc ++ [ecp]) (Some grid) w1)
      as [rows [w' [Hloop [Hlen Hall]]]].
    exists (ecp :: rows), w'. split; [|split].
    + cbn [boot_loop]. unfold bind. rewrite Hrun. cbn [fst snd].
      rewrite Hloop, <- app_assoc. cbn [Nat.eqb app].
      destruct (k =? 0); reflexivity.
    + simpl. now rewrite Hlen.
    + now constructor.
Qed.

(** X7: on valid inputs the bootstrap returns an ensemble of exactly
    [num_bootstrap] rows and [bins + 1] columns; every row starts with 0, is
    non-decreasing and has [bins + 1] entries; the grid returned with it is
    the grid of the bin count when there is at least one iteration and
    [None] when there is none. *)
Theorem bootstrap_ensemble_invariants (G : Generator) (np_sqrt : Q -> Q)
    (samples theta : ndarray) (references : refs_arg) (metric : string)
    (num_alpha_bins : option Z) (num_bootstrap : Z) (norm : bool)
    (seed : option Z) (Sn N D : nat) (w : world G) :
  shape samples = [Sn; N; D] -> wf samples ->
  shape theta = [N; D] -> wf theta ->
  match references with
  | RefArr r => shape r = [N; D] /\ wf r
  | RefStr s => String.eqb s "random" = true
  end ->
  valid_seed seed = true -> valid_metric metric = true ->
  (1 <= default_bins num_alpha_bins N)%Z -> 0 < Sn -> 0 < N ->
  (0 <= num_bootstrap)%Z ->
  let bins := Z.to_nat (default_bins num_alpha_bins N) in
  exists boot_ecp w',
    _get_tarp_coverage_bootstrap G np_sqrt samples theta references metric
      num_alpha_bins num_bootstrap norm seed w =
    (Ok (boot_ecp,
         if (num_bootstrap =? 0)%Z then None else Some (linspace01 bins)),
     w') /\
    eshape boot_ecp = (Z.to_nat num_bootstrap, S bins) /\
    length (erows boot_ecp) = Z.to_nat num_bootstrap /\
    Forall (curve_ok bins) (erows boot_ecp).
Proof.
  intros Hs Hws Ht Hwt Href Hseed Hmetric Hbins HSn HN HB bins.
  assert (Hd1 : dim samples 1 = N) by (unfold dim; now rewrite Hs).
  unfold _get_tarp_coverage_bootstrap, bind. unfold ndim.
  rewrite Hs, Hd1. cbn [length Nat.ltb Nat.leb].
  destruct (Z.ltb_spec num_bootstrap 0) as [C|_]; [lia|].
  destruct (Z.ltb_spec (default_bins num_alpha_bins N + 1) 0) as [C|_];
    [lia|].
  cbn [orb].
  destruct (boot_loop_returns G
              (boot_iteration G np_sqrt samples theta references metric
                 (default_bins num_alpha_bins N) norm seed N)
              (curve_ok bins) (linspace01 bins)
              (fun w0 =>
                 boot_iteration_valid G np_sqrt samples theta references
                   metric (default_bins num_alpha_bins N) norm seed Sn N D w0
                   Hs Hws Ht Hwt Href Hseed Hmetric Hbins HSn HN)
              (Z.to_nat num_bootstrap) [] None w)
    as [rows [w' [Hloop [Hlen Hall]]]].
  rewrite Hloop. unfold ret. cbn [fst snd app].
  eexists. exists w'. split; [|split; [|split]].
  - f_equal. f_equal.
    destruct (Z.eqb_spec num_bootstrap 0) as [->|Hne]; [reflexivity|].
    destruct (Nat.eqb_spec (Z.to_nat num_bootstrap) 0) as [E|_];
      [lia | reflexivity].
  - cbn [eshape]. f_equal. unfold bins. lia.
  - exact Hlen.
  - exact Hall.
Qed.

Lemma bootstrap_ensemble_invariants_witness :
  exists boot_ecp w',
    _get_tarp_coverage_bootstrap Lcg.gen Lcg.sqrt Ex.samples Ex.theta
      (RefStr "random") "euclidean" (Some 4%Z) 3 true (Some 0%Z) (Ex.w0 5) =
    (Ok (boot_ecp, Some (linspace01 4)), w') /\
    eshape boot_ecp = (3, 5) /\
    length (erows boot_ecp) = 3 /\
    Forall (curve_ok 4) (erows boot_ecp).
Proof.
  apply (bootstrap_ensemble_invariants Lcg.gen Lcg.sqrt Ex.samples Ex.theta
           (RefStr "random") "euclidean" (Some 4%Z) 3 true (Some 0%Z) 1 2 1
           (Ex.w0 5)); evaluate.
Defined.

(** X8: with an integer seed and array references every bootstrap
    iteration after the first starts from the generator state of the seed,
    so all rows of the returned ensemble after the first are one and the
    same row. *)
Theorem seeded_bootstrap_rows_coincide (G : Generator) (np_sqrt : Q -> Q)
    (samples theta r : ndarray) (metric : string) (num_alpha_bins : option Z)
    (num_bootstrap : Z) (norm : bool) (s : Z) (w : world G)
    (boot_ecp : ensemble) (alpha : option (list Q)) :
  fst (get_tarp_coverage G np_sqrt samples theta (RefArr r) metric
         num_alpha_bins num_bootstrap norm true (Some s) w)
  = Ok (Ensemble boot_ecp, alpha) ->
  forall i j,
    1 <= i < Z.to_nat num_bootstrap -> 1 <= j < Z.to_nat num_bootstrap ->
    nth i (erows boot_ecp) [] = nth j (erows boot_ecp) [].
Proof.
  intros Hrun i j Hi Hj. unfold get_tarp_coverage, bind in Hrun.
  destruct (_get_tarp_coverage_bootstrap G np_sqrt samples theta (RefArr r)
              metric num_alpha_bins num_bootstrap norm (Some s) w)
    as [[[e a]|err] w1] eqn:Hboot; [|discriminate].
  unfold ret in Hrun. cbn [fst snd] in Hrun.
  injection Hrun as He Ha. subst e.
  destruct (bootstrap_rows_repeat G np_sqrt samples theta r metric
              num_alpha_bins num_bootstrap norm s w w1 boot_ecp a Hboot
              ltac:(lia)) as [first [row Hrows]].
  rewrite Hrows.
  destruct i as [|i]; [lia|]. destruct j as [|j]; [lia|].
  cbn [nth].
  rewrite !(nth_indep _ [] row) by (rewrite repeat_length; lia).
  now rewrite !nth_repeat.
Qed.

Lemma seeded_bootstrap_rows_coincide_witness :
  nth 1 (rows_of
           (get_tarp_coverage Lcg.gen Lcg.sqrt Ex.samples Ex.theta
              (RefArr Ex.references) "manhattan" (Some 2%Z) 3 false true
              (Some 0%Z) (Ex.w0 5))) []
  = nth 2 (rows_of
             (get_tarp_coverage Lcg.gen Lcg.sqrt Ex.samples Ex.theta
                (RefArr Ex.references) "manhattan" (Some 2%Z) 3 false true
                (Some 0%Z) (Ex.w0 5))) [].
Proof.
  apply (seeded_bootstrap_rows_coincide Lcg.gen Lcg.sqrt Ex.samples Ex.theta
           Ex.references "manhattan" (Some 2%Z) 3 false 0 (Ex.w0 5)
           (mk_ensemble (3, 3)
              (rows_of
                 (get_tarp_coverage Lcg.gen Lcg.sqrt Ex.samples Ex.theta
                    (RefArr Ex.references) "manhattan" (Some 2%Z) 3 false
                    true (Some 0%Z) (Ex.w0 5))))
           (Some
              (alpha_of
                 (get_tarp_coverage Lcg.gen Lcg.sqrt Ex.samples Ex.theta
                    (RefArr Ex.references) "manhattan" (Some 2%Z) 3 false
                    true (Some 0%Z) (Ex.w0 5))))).
  - vm_compute. reflexivity.
  - simpl. lia.
  - simpl. lia.
Defined.

(** X9: in single-pass mode an integer seed makes the outcome of the entry
    point independent of the process state it is called in. *)
Theorem seeded_single_pass_deterministic (G : Generator) (np_sqrt : Q -> Q)
    (samples theta : ndarray) (references : refs_arg) (metric : string)
    (num_alpha_bins : option Z) (num_bootstrap : Z) (norm : bool) (s : Z)
    (w1 w2 : world G) :
  fst (get_tarp_coverage G np_sqrt samples theta references metric
         num_alpha_bins num_bootstrap norm false (Some s) w1)
  = fst (get_tarp_coverage G np_sqrt samples theta references metric
           num_alpha_bins num_bootstrap norm false (Some s) w2).
Proof.
  pose proof (single_seeded_deterministic G np_sqrt samples theta references
                metric num_alpha_bins norm s w1 w2) as H.
  unfold get_tarp_coverage, bind.
  destruct (_get_tarp_coverage_single G np_sqrt samples theta references
              metric num_alpha_bins norm (Some s) w1) as [[r1|e1] w1'];
    destruct (_get_tarp_coverage_single G np_sqrt samples theta references
                metric num_alpha_bins norm (Some s) w2) as [[r2|e2] w2'];
    cbn [fst] in *; try discriminate; inversion H; reflexivity.
Qed.

(** X10: with array references the single pass uses no random number: its
    outcome is the same for every usable seed, and for no seed, in every
    process state. *)
Theorem array_references_need_no_randomness (G : Generator)
    (np_sqrt : Q -> Q) (samples theta r : ndarray) (metric : string)
    (num_alpha_bins : option Z) (norm : bool) (seed1 seed2 : option Z)
    (w1 w2 : world G) :
  valid_seed seed1 = true -> valid_seed seed2 = true ->
  fst (_get_tarp_coverage_single G np_sqrt samples theta (RefArr r) metric
         num_alpha_bins norm seed1 w1)
  = fst (_get_tarp_coverage_single G np_sqrt samples theta (RefArr r) metric
           num_alpha_bins norm seed2 w2).
Proof.
  intros H1 H2.
  assert (Hs : forall seed w, valid_seed seed = true ->
             exists w', np_random_seed G seed w = (Ok tt, w')).
  { intros seed w H. unfold np_random_seed.
    destruct seed as [s|]; unfold valid_seed in H.
    - rewrite H. eauto.
    - destruct (os_seed G (os w)). eauto. }
  destruct (Hs seed1 w1 H1) as [w1' E1]. destruct (Hs seed2 w2 H2) as [w2' E2].
  unfold _get_tarp_coverage_single, bind. rewrite E1, E2.
  destruct (negb (ndim samples =? 3)); [reflexivity|].
  destruct (negb (ndim theta =? 2)); [reflexivity|].
  destruct (negb (dim theta 0 =? dim samples 1)); [reflexivity|].
  destruct (negb (dim theta 1 =? dim samples 2)); [reflexivity|].
  unfold reference_points, lift, raise, ret.
  destruct (negb (ndim r =? 2)); [reflexivity|].
  destruct (negb (dim r 0 =? dim samples 1)); [reflexivity|].
  destruct (negb (dim r 1 =? dim samples 2)); [reflexivity|].
  cbn [fst snd].
  destruct (normalize _ _ _ _ _ _) as [[[s' t'] r']|]; [|reflexivity].
  destruct (distances _ _ _ _ _ _); reflexivity.
Qed.

Lemma array_references_need_no_randomness_witness :
  fst (_get_tarp_coverage_single Lcg.gen Lcg.sqrt Ex.samples Ex.theta
         (RefArr Ex.references) "euclidean" (Some 2%Z) true (Some 1%Z)
         (Ex.w0 5))
  = fst (_get_tarp_coverage_single Lcg.gen Lcg.sqrt Ex.samples Ex.theta
           (RefArr Ex.references) "euclidean" (Some 2%Z) true None
           (Ex.w0 8)).
Proof.
  apply (array_references_need_no_randomness Lcg.gen Lcg.sqrt Ex.samples
           Ex.theta Ex.references "euclidean" (Some 2%Z) true (Some 1%Z) None
           (Ex.w0 5) (Ex.w0 8)); reflexivity.
Defined.

(** ** Normalisation and ties *)




Lemma sum_upto_ext (n : nat) (g h : nat -> Q) :
  (forall i, g i = h i) -> sum_upto n g = sum_upto n h.
Proof.
  intros E. unfold sum_upto. induction (seq 0 n) as [|i l IH]; simpl.
  - reflexivity.
  - now rewrite E, IH.
Qed.

Lemma Qltb_irrefl (x : Q) : Qltb x x = false.
Proof. unfold Qltb. apply Z.ltb_irrefl. Qed.

Lemma count_upto_none (n : nat) (p : nat -> bool) :
  (forall i, p i = false) -> count_upto n p = 0.
Proof.
  intros H. unfold count_upto. induction (seq 0 n) as [|i l IH]; simpl.
  - reflexivity.
  - now rewrite H.
Qed.

(** X12: the comparison of the distances is strict under both metrics: a
    dataset all of whose samples coincide with its truth gets the
    credibility value [0 / S], no sample counts as closer. *)
Theorem samples_at_truth_never_closer (np_sqrt : Q -> Q) (metric : string)
    (num_samples num_sims num_dims : nat) (references : nat -> nat -> Q)
    (samples : nat -> nat -> nat -> Q) (theta : nat -> nat -> Q)
    (ds : (nat -> nat -> Q) * (nat -> Q)) (n : nat) :
  distances np_sqrt metric num_dims references samples theta = Ok ds ->
  (forall s d, samples s n d = theta n d) ->
  n < num_sims ->
  nth n (credibility num_samples num_sims (fst ds) (snd ds)) NaN
  = true_divide 0 num_samples.
Proof.
  intros Hds Hsame Hn. rewrite credibility_nth by exact Hn.
  f_equal. apply count_upto_none. intros s.
  unfold distances in Hds.
  destruct (String.eqb metric "euclidean").
  - injection Hds as <-. cbn [fst snd].
    match goal with
    | |- Qltb (np_sqrt (sum_upto _ ?g)) (np_sqrt (sum_upto _ ?h)) = false =>
        rewrite (sum_upto_ext num_dims g h) by (intros d; now rewrite Hsame)
    end.
    apply Qltb_irrefl.
  - destruct (String.eqb metric "manhattan"); [|discriminate].
    injection Hds as <-. cbn [fst snd].
    match goal with
    | |- Qltb (sum_upto _ ?g) (sum_upto _ ?h) = false =>
        rewrite (sum_upto_ext num_dims g h) by (intros d; now rewrite Hsame)
    end.
    apply Qltb_irrefl.
Qed.

Lemma samples_at_truth_never_closer_witness :
  nth 1 (credibility 3 2
           (fun _ n => sum_upto 1 (fun d => Qabs (0 - Q_of_nat (n + d))))
           (fun n => sum_upto 1 (fun d => Qabs (0 - Q_of_nat (n + d)))))
    NaN
  = true_divide 0 3.
Proof.
  apply (samples_at_truth_never_closer Lcg.sqrt "manhattan" 3 2 1
           (fun _ _ => 0%Q) (fun _ n d => Q_of_nat (n + d))
           (fun n d => Q_of_nat (n + d))
           (fun _ n => sum_upto 1 (fun d => Qabs (0 - Q_of_nat (n + d))),
            fun n => sum_upto 1 (fun d => Qabs (0 - Q_of_nat (n + d)))) 1);
    [reflexivity | reflexivity | lia].
Defined.

(** ** Early failures of the bootstrap *)

(** X13: the bootstrap looks at [samples.shape[1]] and allocates the
    ensemble before it draws anything: samples of rank below two fail with
    an [IndexError], not with the shape error of the single pass, and a
    negative iteration count fails with a [ValueError]; in both cases the
    process state is untouched. *)
Theorem bootstrap_early_failures (G : Generator) (np_sqrt : Q -> Q)
    (samples theta : ndarray) (references : refs_arg) (metric : string)
    (num_alpha_bins : option Z) (num_bootstrap : Z) (norm : bool)
    (seed : option Z) (w : world G) :
  (ndim samples < 2 ->
   _get_tarp_coverage_bootstrap G np_sqrt samples theta references metric
     num_alpha_bins num_bootstrap norm seed w
   = (Raise (IndexError "tuple index out of range"), w)) /\
  (2 <= ndim samples -> (num_bootstrap < 0)%Z ->
   _get_tarp_coverage_bootstrap G np_sqrt samples theta references metric
     num_alpha_bins num_bootstrap norm seed w
   = (Raise (ValueError "negative dimensions are not allowed"), w)).
Proof.
  unfold _get_tarp_coverage_bootstrap, raise. split.
  - intros Hr. destruct (Nat.ltb_spec (ndim samples) 2) as [_|C];
      [reflexivity | lia].
  - intros Hr HB. destruct (Nat.ltb_spec (ndim samples) 2) as [C|_]; [lia|].
    destruct (Z.ltb_spec num_bootstrap 0) as [_|C]; [reflexivity | lia].
Qed.

Lemma bootstrap_early_failures_witness :
  _get_tarp_coverage_bootstrap Lcg.gen Lcg.sqrt
    (mk_ndarray [3] [0; 1; 2]%Q) Ex.theta (RefStr "random") "euclidean" None
    5 true None (Ex.w0 5)
  = (Raise (IndexError "tuple index out of range"), Ex.w0 5) /\
  _get_tarp_coverage_bootstrap Lcg.gen Lcg.sqrt Ex.samples Ex.theta
    (RefStr "random") "euclidean" None (-1) true None (Ex.w0 5)
  = (Raise (ValueError "negative dimensions are not allowed"), Ex.w0 5).
Proof.
  split.
  - apply (proj1 (bootstrap_early_failures Lcg.gen Lcg.sqrt
                    (mk_ndarray [3] [0; 1; 2]%Q) Ex.theta (RefStr "random")
                    "euclidean" None 5 true None (Ex.w0 5))).
    cbv. lia.
  - apply (proj2 (bootstrap_early_failures Lcg.gen Lcg.sqrt Ex.samples
                    Ex.theta (RefStr "random") "euclidean" None (-1) true
                    None (Ex.w0 5))).
    + cbv. lia.
    + lia.
Defined.
